(** * mboot: unpacking and repacking Intel boot images

    A shallow embedding of [mboot.c] (the content probe [check_byte], the
    Segment Locator [unpack] and the Image Assembler [pack]) together with
    the properties of the format codec.

    Conventions of the embedding.
    - A byte is a [Z] in [0, 256).  C integers are [Z] with the conversions
      written out ([to_int], [to_u32], [to_u8]).
    - A memory cell is an [option Z]: [None] stands for an indeterminate
      byte, one that no statement has written since the object was created
      ([malloc], or a local array without initialiser).  Copying a cell
      copies indeterminacy; a computation whose value depends on an
      indeterminate cell yields an indeterminate value; a branch on one,
      or an access outside an object, has no defined behaviour and the
      function then yields [None].
    - A [FILE] open for reading is its contents and a position; the output
      directory is a finite map from file names to contents.
    - The machine is little-endian (the tool targets Intel and ARM
      devices): [uint32_t] objects are stored least significant byte
      first. *)

From stdpp Require Import base option list strings gmap.
From Stdlib Require Import ZArith Lia.

Local Open Scope Z_scope.

(** ** C integers and memory cells *)

Abbreviation cell := (option Z).

(** Lengths and indices are C integers. *)
Abbreviation len l := (Z.of_nat (length l)).

Definition to_u8 (z : Z) : Z := z mod 256.
Definition to_u32 (z : Z) : Z := z mod 2 ^ 32.
Definition to_int (z : Z) : Z := (z + 2 ^ 31) mod 2 ^ 32 - 2 ^ 31.

(** [malloc(n)], and a local array of [n] bytes: [n] indeterminate cells. *)
Definition malloc (n : Z) : list cell := replicate (Z.to_nat n) None.

(** [memcpy(dst + off, src, n)]: the first [n] cells of [src] replace the
    cells [off .. off + n - 1] of [dst]; both ranges must lie inside their
    objects. *)
Definition memcpy (dst : list cell) (off : Z) (src : list cell) (n : Z)
  : option (list cell) :=
  if decide (0 ≤ n ∧ n ≤ len src ∧ 0 ≤ off ∧ off + n ≤ len dst) then
    Some (take (Z.to_nat off) dst ++ take (Z.to_nat n) src
            ++ drop (Z.to_nat (off + n)) dst)
  else None.

(** [memset(dst + off, c, n)]. *)
Definition memset (dst : list cell) (off : Z) (c : Z) (n : Z)
  : option (list cell) :=
  memcpy dst off (replicate (Z.to_nat n) (Some (to_u8 c))) n.

(** The object representation of a [uint32_t], and the value of four
    cells read as one ([*(uint32_t * )p]). *)
Definition store_u32 (v : Z) : list cell :=
  [Some (v mod 256); Some (v / 256 mod 256);
   Some (v / 65536 mod 256); Some (v / 16777216 mod 256)].

Definition load_u32 (p : list cell) : option Z :=
  match p with
  | Some b0 :: Some b1 :: Some b2 :: Some b3 :: _ =>
      Some (b0 + 256 * b1 + 65536 * b2 + 16777216 * b3)
  | _ => None
  end.

(** [strlen]: the number of cells before the first NUL; not defined when
    an indeterminate cell or the end of the object comes first. *)
Fixpoint strlen (s : list cell) : option nat :=
  match s with
  | Some c :: s' => if decide (c = 0) then Some 0%nat else S <$> strlen s'
  | _ => None
  end.

(** ** Streams *)

Record FILE := mkFILE { contents : list Z; offset : Z }.

Definition fopen_rb (bytes : list Z) : FILE := mkFILE bytes 0.

Definition ftell (f : FILE) : Z := offset f.

(** [fseek(f, d, SEEK_CUR)]: a seek before the start of the file fails and
    leaves the position where it was; a seek past the end is allowed. *)
Definition fseek_cur (f : FILE) (d : Z) : FILE :=
  if decide (0 ≤ offset f + d) then mkFILE (contents f) (offset f + d) else f.

(** The bytes of the stream from its position on, at most [size] of them,
    and [fread(buf, size, 1, f)] into an object [buf] of at least [size]
    cells: the bytes available (at most [size]) are stored at the start
    of [buf] and the position advances by their number; the other cells
    of [buf] keep what they held. *)
Definition ahead (f : FILE) (size : Z) : list Z :=
  take (Z.to_nat size) (drop (Z.to_nat (offset f)) (contents f)).

Definition fread (buf : list cell) (size : Z) (f : FILE) : list cell * FILE :=
  let got := ahead f size in
  ((Some <$> got) ++ drop (length got) buf,
   mkFILE (contents f) (offset f + len got)).

(** The globals [filename] and [directory] keep their initial values. *)
Definition filename : string := "boot.img".

(** ** The content probe *)

Section Mboot.

(** [isalnum] of the C library.  The standard fixes only when its result
    is zero; which non-zero value it returns for an alphanumeric
    character is up to the library. *)
Variable isalnum : Z → Z.

Definition check_byte (f : FILE) (size min : Z) : option (Z * FILE) :=
  let origsize := size in
  let tmp := malloc size in
  let skip := malloc 1 in
  (* try skipping first byte if \x00 *)
  '(size, f) ←
    (if decide (size > 1) then
       let '(skip, f) := fread skip 1 f in
       c ← mjoin (skip !! 0%nat);
       if decide (c = 0) then Some (size - 1, f)
       else Some (size, fseek_cur f (-1))
     else Some (size, f));
  let '(tmp, f) := fread tmp size f in
  let f := fseek_cur f (- origsize) in
  c ← mjoin (tmp !! 0%nat);
  let bytes := isalnum c in
  (* custom fault tolerance *)
  if decide (bytes > min ∧ bytes < origsize) then Some (1, f) else Some (0, f).

(** ** The Segment Locator *)

(** The artifacts of the configured directory. *)
Abbreviation directory := (gmap string (list cell)).

Definition write_buffer (f : FILE) (size : Z) (name : string) (dir : directory)
  : FILE * directory :=
  let buffer := malloc size in
  let '(buffer, f) := fread buffer size f in
  (f, <[name := take (Z.to_nat size) buffer]> dir).

Definition write_string (s : list cell) (name : string) (dir : directory)
  : option directory :=
  n ← strlen s;
  Some (<[name := take n s]> dir).

Inductive diagnostic :=
  | cannot_open_input (name : string)
  | cannot_open_output
  | kernel_size_likely_wrong
  | ramdisk_size_likely_wrong.

(** What a run of [unpack] leaves behind: its return value, the artifacts
    written, and the lines printed on the standard output (label and
    number) and on the error stream. *)
Record unpacked := mkUnpacked {
  u_status : Z;
  u_files : directory;
  u_stdout : list (string * Z);
  u_stderr : list diagnostic
}.

Definition sig_deltas : list Z := [0; 480; 248; 296].

(** The loop over [sig_deltas]: seek forward by each delta in turn and
    stop at the first positive probe. *)
Fixpoint sig_loop (deltas : list Z) (f : FILE) : option FILE :=
  match deltas with
  | [] => Some f
  | d :: deltas' =>
      let f := fseek_cur f d in
      '(found, f) ← check_byte f 4 1;
      if decide (found ≠ 0) then Some f else sig_loop deltas' f
  end.

(** Size in bytes of [char *cmdline[1024]], an array of pointers. *)
Definition sizeof_cmdline : Z := 1024 * 8.

Definition unpack (image : option (list Z)) : option unpacked :=
  match image with
  | None => Some (mkUnpacked 1 ∅ [] [cannot_open_input filename])
  | Some bytes =>
      let f := fopen_rb bytes in
      let dir : directory := ∅ in
      (* header is 512 bytes but may rarely not exist on some devices *)
      '(found, f) ← check_byte f 4 1;
      let '(f, dir) :=
        if decide (found = 0) then write_buffer f 512 "hdr" dir else (f, dir) in
      let hdr_size := to_int (ftell f) in
      let out := [("header size", hdr_size)] in
      (* header may have 480, 728 or 1024 bytes of signature appended *)
      f ← sig_loop sig_deltas f;
      let sig_size := to_int (ftell f - hdr_size) in
      let '(f, dir) :=
        if decide (sig_size > 0) then
          let f := fseek_cur f (- sig_size) in
          write_buffer f sig_size "sig" dir
        else (f, dir) in
      let out := out ++ [("sig size", sig_size)] in
      (* cmdline is up to 1024 bytes padded with \x00 *)
      let cmdline := malloc sizeof_cmdline in
      let '(cmdline, f) := fread cmdline 1024 f in
      dir ← write_string cmdline "cmdline.txt" dir;
      (* image info is the next 16 bytes padded out to 3072 bytes *)
      let '(kernel_size_buffer, f) := fread (malloc 4) 4 f in
      let '(ramdisk_size_buffer, f) := fread (malloc 4) 4 f in
      let '(f, dir) := write_buffer f 8 "parameter" dir in
      let f := fseek_cur f (3072 - 16) in
      (* bootstub is 4096 bytes but can be 8192 bytes on some devices *)
      let f := fseek_cur f 4096 in
      '(found, f) ← check_byte f 2 0;
      let f := if decide (found ≠ 0) then fseek_cur f 4096 else f in
      let bootstub_size := to_int (ftell f - hdr_size - sig_size - 4096) in
      let f := fseek_cur f (- bootstub_size) in
      let '(f, dir) := write_buffer f bootstub_size "bootstub" dir in
      let out := out ++ [("bootstub size", bootstub_size)] in
      kernel_size ← load_u32 kernel_size_buffer;
      if decide (kernel_size < 500000 ∨ kernel_size > 15000000) then
        Some (mkUnpacked 1 dir out [kernel_size_likely_wrong])
      else
        let '(f, dir) := write_buffer f kernel_size "kernel" dir in
        let out := out ++ [("kernel size", to_int kernel_size)] in
        ramdisk_size ← load_u32 ramdisk_size_buffer;
        if decide (ramdisk_size < 10000 ∨ ramdisk_size > 300000000) then
          Some (mkUnpacked 1 dir out [ramdisk_size_likely_wrong])
        else
          let '(f, dir) := write_buffer f ramdisk_size "ramdisk.cpio.gz" dir in
          let out := out ++ [("ramdisk size", to_int ramdisk_size)] in
          Some (mkUnpacked 0 dir out [])
  end.

End Mboot.

(** ** The Image Assembler *)

(** [read_file(name, &size)]: the contents of the artifact and its size
    (held in an [int], then in an [unsigned]), or a null pointer when the
    artifact cannot be opened. *)
Definition read_file (dir : gmap string (list cell)) (name : string)
  : option (list cell * Z) :=
  bytes ← dir !! name;
  let size := to_int (len bytes) in
  Some (take (Z.to_nat size) bytes, to_u32 size).

Definition required_file : list string :=
  ["cmdline.txt"; "parameter"; "bootstub"; "kernel"; "ramdisk.cpio.gz"].

(** The loop over [required_file]: it stops at the first artifact that
    cannot be opened. *)
Fixpoint read_required (dir : gmap string (list cell)) (names : list string)
  : diagnostic + list (list cell * Z) :=
  match names with
  | [] => inr []
  | name :: names' =>
      match read_file dir name with
      | None => inl (cannot_open_input name)
      | Some d =>
          match read_required dir names' with
          | inl e => inl e
          | inr ds => inr (d :: ds)
          end
      end
  end.

(** The parameter padding magic of a signed image. *)
Definition sig_magic : list cell :=
  Some <$> [0xBD; 0x02; 0xBD; 0x02; 0xBD; 0x12; 0xBD; 0x12].

(** One step of [xor ^= hdr_calc[i]] on a [uint8_t]. *)
Definition xor_step (x c : cell) : cell :=
  a ← x; b ← c; Some (to_u8 (Z.lxor a b)).

(** The checksum of a header: copy 56 bytes, clear the byte at offset 7,
    fold them with xor. *)
Definition hdr_xor (bootimg : list cell) : option cell :=
  hdr_calc ← memcpy (malloc 56) 0 bootimg 56;
  hdr_calc ← memcpy hdr_calc 7 [Some 0] 1;
  Some (foldl xor_step (Some 0) (take 56 hdr_calc)).

Definition store_cell_u32 (v : option Z) : list cell :=
  from_option store_u32 (replicate 4 None) v.

Record packed := mkPacked {
  p_status : Z;
  p_stderr : list diagnostic;
  p_image : option (list cell)
}.

(** The second half of [pack], from the computation of the image size to
    the checksum: the buffer that is written to the output file.  Each
    artifact comes with its size as [read_file] stored it; [hdr] and [sig]
    are [None] for a null pointer. *)
Definition assemble (hdr sig : option (list cell * Z))
    (cmdline parameter bootstub kernel ramdisk : list cell * Z)
  : option (list cell) :=
  let hdr_size := from_option snd 0 hdr in
  let sig_size := from_option snd 0 sig in
  let '(cmdline, cmdline_size) := cmdline in
  let '(parameter, parameter_size) := parameter in
  let '(bootstub, bootstub_size) := bootstub in
  let '(kernel, kernel_size) := kernel in
  let '(ramdisk, ramdisk_size) := ramdisk in
  (* calculate image size and size of padding to next full 512 byte sector *)
  let img_size :=
    to_int (to_u32 (hdr_size + sig_size + 4096 + bootstub_size
                    + kernel_size + ramdisk_size)) in
  let padding_size :=
    if decide (512 - Z.rem img_size 512 < 512)
    then 512 - Z.rem img_size 512 else 0 in
  bootimg ←
    (if decide (0 ≤ img_size + padding_size < 2 ^ 31)
     then Some (malloc (img_size + padding_size)) else None);
  (* add header if present *)
  bootimg ←
    match hdr with
    | Some (hdr_data, _) => memcpy bootimg 0 hdr_data hdr_size
    | None => Some bootimg
    end;
  (* add signature if present and add parameter padding magic *)
  bootimg ←
    match sig, hdr with
    | Some (sig_data, _), _ =>
        bootimg ← memcpy bootimg hdr_size sig_data sig_size;
        memcpy bootimg (to_u32 (hdr_size + sig_size + 1024 + 16)) sig_magic 8
    | None, Some _ =>
        (* adjust header imgtype based on signature presence *)
        imgtype_buffer ← memcpy (malloc 4) 0 (drop 52 bootimg) 4;
        let imgtype := (λ v, to_u32 (v + 1)) <$> load_u32 imgtype_buffer in
        memcpy bootimg 52 (store_cell_u32 imgtype) 4
    | None, None => Some bootimg
    end;
  (* add cmdline, image info and parameter to their 4096 byte block *)
  bootimg ← memcpy bootimg (to_u32 (hdr_size + sig_size))
              cmdline cmdline_size;
  bootimg ← memcpy bootimg (to_u32 (hdr_size + sig_size + 1024))
              (store_u32 kernel_size) 4;
  bootimg ← memcpy bootimg (to_u32 (hdr_size + sig_size + 1024 + 4))
              (store_u32 ramdisk_size) 4;
  bootimg ← memcpy bootimg (to_u32 (hdr_size + sig_size + 1024 + 8))
              parameter parameter_size;
  (* add bootstub, kernel and ramdisk *)
  bootimg ← memcpy bootimg (to_u32 (hdr_size + sig_size + 4096))
              bootstub bootstub_size;
  bootimg ← memcpy bootimg
              (to_u32 (hdr_size + sig_size + 4096 + bootstub_size))
              kernel kernel_size;
  bootimg ← memcpy bootimg
              (to_u32 (hdr_size + sig_size + 4096 + bootstub_size
                       + kernel_size))
              ramdisk ramdisk_size;
  (* add trailing padding *)
  bootimg ← memset bootimg img_size 0xFF padding_size;
  (* update sector count and xor checksum in header *)
  bootimg ←
    match hdr with
    | Some _ =>
        let sectors := to_u32 (Z.quot (img_size + padding_size) 512 - 1) in
        bootimg ← memcpy bootimg 48 (store_u32 sectors) 4;
        xor ← hdr_xor bootimg;
        memcpy bootimg 7 [xor] 1
    | None => Some bootimg
    end;
  Some (take (Z.to_nat (img_size + padding_size)) bootimg).

(** [pack]: load the artifacts, open the output file, assemble the buffer
    and write it; [writable] tells whether the output file can be
    opened. *)
Definition pack (dir : gmap string (list cell)) (writable : bool)
  : option packed :=
  let hdr := read_file dir "hdr" in
  let sig := read_file dir "sig" in
  match read_required dir required_file with
  | inl e => Some (mkPacked 1 [e] None)
  | inr [cmdline; parameter; bootstub; kernel; ramdisk] =>
      if negb writable then Some (mkPacked 1 [cannot_open_output] None) else
      bootimg ← assemble hdr sig cmdline parameter bootstub kernel ramdisk;
      Some (mkPacked 0 [] (Some bootimg))
  | inr _ => None
  end.

(** ** Reference definitions

    Stated from the format description, to be compared with the code. *)

(** The region of [n] bytes at offset [off] of a buffer or an image. *)
Definition region {A} (buf : list A) (off n : Z) : list A :=
  take (Z.to_nat n) (drop (Z.to_nat off) buf).

(** What [write_buffer] stores for the [n] bytes at offset [off] of the
    image: the bytes that the image has there, then indeterminate bytes
    if the image ends early. *)
Definition cut (bytes : list Z) (off n : Z) : list cell :=
  (Some <$> region bytes off n)
    ++ replicate (Z.to_nat n - length (region bytes off n)) None.

(** The Segment Locator in terms of offsets: the outcome for an image
    with a header of [h] bytes ([hdr] tells whether it is emitted), a
    signature of [s] bytes, a command line of [n] characters, a bootstub
    of [b] bytes and the size fields [ks] and [rs]. *)
Definition segments (bytes : list Z) (hdr : bool) (h s n b ks rs : Z)
  : unpacked :=
  let dir : gmap string (list cell) :=
    if hdr then <["hdr" := cut bytes 0 512]> ∅ else ∅ in
  let dir := if decide (s > 0) then <["sig" := cut bytes h s]> dir else dir in
  let dir := <["cmdline.txt" := Some <$> region bytes (h + s) n]> dir in
  let dir := <["parameter" := cut bytes (h + s + 1032) 8]> dir in
  let dir := <["bootstub" := cut bytes (h + s + 4096) b]> dir in
  let out := [("header size", h); ("sig size", s); ("bootstub size", b)] in
  if decide (ks < 500000 ∨ ks > 15000000) then
    mkUnpacked 1 dir out [kernel_size_likely_wrong]
  else
    let dir := <["kernel" := cut bytes (h + s + 4096 + b) ks]> dir in
    let out := out ++ [("kernel size", ks)] in
    if decide (rs < 10000 ∨ rs > 300000000) then
      mkUnpacked 1 dir out [ramdisk_size_likely_wrong]
    else
      let dir :=
        <["ramdisk.cpio.gz" := cut bytes (h + s + 4096 + b + ks) rs]> dir in
      mkUnpacked 0 dir (out ++ [("ramdisk size", rs)]) [].

(** The size of an artifact of the directory, 0 when it is absent. *)
Definition artifact_size (dir : gmap string (list cell)) (name : string) : Z :=
  from_option (λ bytes, len bytes) 0 (dir !! name).

(** The bytes of a list of cells, when all of them are determinate. *)
Fixpoint determinate (cells : list cell) : option (list Z) :=
  match cells with
  | [] => Some []
  | c :: cells' => b ← c; bs ← determinate cells'; Some (b :: bs)
  end.

(** The exclusive or of a list of bytes. *)
Definition xor_bytes (bytes : list Z) : Z := foldr Z.lxor 0 bytes.

(** The checksum of a header as the format describes it: the xor of its
    first 56 bytes, the byte at offset 7 counting as zero, as one byte.
    It is indeterminate when one of these bytes is. *)
Definition checksum (header : list cell) : cell :=
  bs ← determinate (<[7%nat := Some 0]> (take 56 header));
  Some (xor_bytes bs mod 256).

(** The byte that the content probe classifies, as a function of the next
    two bytes of the stream: the second one when the first is NUL and the
    window has more than one byte, the first one otherwise. *)
Definition probed (window : list Z) (size : Z) : option Z :=
  if decide (size > 1) then
    match window with
    | b :: w => if decide (b = 0) then head w else Some b
    | [] => None
    end
  else if decide (size = 1) then head window else None.

(** ** Sample C libraries

    Two ways in which C libraries implement [isalnum]: a test of one bit
    of the character-class table (the GNU library on a little-endian
    machine: the bit of value 8), and a mask of the upper-case, lower-case
    and digit bits of the table (the BSD libraries and the older Android
    library: 1, 2 and 4). *)

Module Libc.

Definition upper (c : Z) : bool := bool_decide (65 ≤ c ≤ 90).
Definition lower (c : Z) : bool := bool_decide (97 ≤ c ≤ 122).
Definition digit (c : Z) : bool := bool_decide (48 ≤ c ≤ 57).


Definition isalnum_mask (c : Z) : Z :=
  if upper c then 1 else if lower c then 2 else if digit c then 4 else 0.

End Libc.


(** ** Sample artifacts and images *)

Module Samples.

(** A directory of small artifacts, without header and signature; the
    parameter artifact has nine bytes. *)
Definition parameter9 : list cell := Some <$> [1; 2; 3; 4; 5; 6; 7; 8; 9].

Definition small_dir : gmap string (list cell) :=
  <["cmdline.txt" := Some <$> [97; 98; 99]]>
    (<["parameter" := parameter9]>
      (<["bootstub" := replicate 16 (Some 200)]>
        (<["kernel" := replicate 5 (Some 7)]>
          (<["ramdisk.cpio.gz" := replicate 3 (Some 9)]> ∅)))).

(** A directory with a header, a signature and artifacts of the smallest
    valid sizes. *)
Definition kernel : list cell := replicate (Z.to_nat 500000) (Some 7).
Definition ramdisk : list cell := replicate (Z.to_nat 10000) (Some 9).
Definition bootstub : list cell := replicate 4096 (Some 200).
Definition cmdline : list cell := Some <$> [97; 98; 99].
Definition parameter : list cell := replicate 8 (Some 0).
Definition hdr : list cell := replicate 512 (Some 255).

Definition full_dir : gmap string (list cell) :=
  <["hdr" := hdr]>
    (<["sig" := replicate 480 (Some 1)]>
      (<["cmdline.txt" := cmdline]>
        (<["parameter" := parameter]>
          (<["bootstub" := bootstub]>
            (<["kernel" := kernel]>
              (<["ramdisk.cpio.gz" := ramdisk]> ∅)))))).

(** Images on the pattern of the format: a header that starts with
    "$OS$", a signature of 480 bytes, a command line, the two size fields,
    the parameter block, the filler, a bootstub of 4096 bytes and what
    follows it. *)
Definition make_image (kernel_size ramdisk_size rest : list Z) : list Z :=
  [36; 79; 83; 36] ++ replicate 508 0
    ++ replicate 480 1
    ++ [105; 110; 105; 116] ++ replicate 1020 0
    ++ kernel_size ++ ramdisk_size
    ++ replicate 8 0
    ++ replicate 3056 90
    ++ replicate 4096 200
    ++ rest.

(** An image cut short 1000 bytes after the bootstub, with size fields
    of 0. *)
Definition short_image : list Z :=
  make_image [0; 0; 0; 0] [0; 0; 0; 0] (replicate 1000 7).

(** The same without its header and signature: it starts with the
    command line. *)
Definition headerless_image : list Z := drop (512 + 480) short_image.

(** An image where an upper-case letter follows the first 4096 bytes of
    the bootstub. *)
Definition wide_image : list Z :=
  make_image [0; 0; 0; 0] [0; 0; 0; 0] (65 :: replicate 4999 7).

(** The same, cut one byte after the bootstub. *)
Definition shorter_image : list Z :=
  make_image [0; 0; 0; 0] [0; 0; 0; 0] [7].

(** A complete image: a kernel of 500000 bytes, a ramdisk of 10000 bytes
    and the padding to the next sector. *)
Definition image : list Z :=
  make_image [32; 161; 7; 0] [16; 39; 0; 0]
    (replicate (Z.to_nat 500000) 7 ++ replicate (Z.to_nat 10000) 9
       ++ replicate 496 255).

End Samples.

(** ** The command line

    [main]: the loop over the arguments, the check of the directory and
    the call of [unpack] or [pack].  The file system is what the calls of
    [main] see of it: [stat] of a path, the contents of an image file, the
    artifacts of a directory, and whether an output file can be opened.
    The outcome keeps the exit status and the files written; the text of
    the diagnostics is left out. *)

Record config := mkConfig {
  unpackbool : bool;
  cfg_filename : string;
  cfg_directory : string
}.

(** [usage(val)] prints the help text and returns [val]. *)
Definition usage (val : Z) : Z := val.

(** The [while (argc > 0)] loop of [main] over [argv + 1]: the usage
    status when it returns from inside the loop, the configuration when
    it runs to the end. *)
Fixpoint parse_args (args : list string) (c : config) : Z + config :=
  match args with
  | [] => inr c
  | arg :: rest =>
      if decide (arg = "-h" ∨ arg = "--help") then inl (usage 0)
      else if decide (arg = "-u" ∨ arg = "--unpack") then
        parse_args rest (mkConfig true (cfg_filename c) (cfg_directory c))
      else
        match rest with
        | val :: rest' =>
            if decide (arg = "-f" ∨ arg = "--file") then
              parse_args rest' (mkConfig (unpackbool c) val (cfg_directory c))
            else if decide (arg = "-d" ∨ arg = "--dir") then
              parse_args rest' (mkConfig (unpackbool c) (cfg_filename c) val)
            else inl (usage 1)
        | [] => inl (usage 1)
        end
  end.

Record world := mkWorld {
  (* stat(path): None when it fails, else whether the path is a directory *)
  w_stat : string → option bool;
  (* the contents of a file that can be opened for reading *)
  w_image : string → option (list Z);
  (* the artifacts that can be opened in a directory *)
  w_artifacts : string → gmap string (list cell);
  (* whether a file can be opened for writing *)
  w_writable : string → bool
}.

Record outcome := mkOutcome {
  o_exit : Z;
  o_artifacts : gmap string (list cell);
  o_image : option (list cell)
}.

Section Main.

Variable isalnum : Z → Z.

Definition main (argv : list string) (w : world) : option outcome :=
  match parse_args (tail argv) (mkConfig false filename "./") with
  | inl status => Some (mkOutcome status ∅ None)
  | inr c =>
      match w_stat w (cfg_directory c) with
      | None => Some (mkOutcome 1 ∅ None)
      | Some false => Some (mkOutcome 1 ∅ None)
      | Some true =>
          if unpackbool c then
            r ← unpack isalnum (w_image w (cfg_filename c));
            Some (mkOutcome (u_status r) (u_files r) None)
          else
            p ← pack (w_artifacts w (cfg_directory c))
                  (w_writable w (cfg_filename c));
            Some (mkOutcome (p_status p) ∅ (p_image p))
      end
  end.

End Main.

(** A file system with an image and an empty directory, and one with the
    artifacts of a small image. *)
Module Worlds.

Definition with_image : world :=
  mkWorld (λ path, if decide (path = "out") then Some true else None)
          (λ path, if decide (path = "boot.img")
                   then Some Samples.short_image else None)
          (λ _, ∅)
          (λ _, true).

Definition with_artifacts : world :=
  mkWorld (λ path, if decide (path = "./") then Some true else None)
          (λ _, None)
          (λ path, if decide (path = "./") then Samples.small_dir else ∅)
          (λ _, true).

End Worlds.

(** ** The buffer of [pack], cell by cell

    Stated from the order of the copies in [pack], to be compared with
    the code: a cell holds what the last copy that covers it put there, and
    is indeterminate when no copy covers it. *)

(** The cell [i] after [memcpy(dst + off, src, n)], [rest] being the cell
    before the copy. *)
Definition copied (i : nat) (off : Z) (src : list cell) (n : Z)
    (rest : option cell) : option cell :=
  if decide (off ≤ Z.of_nat i < off + n)
  then src !! (i - Z.to_nat off)%nat else rest.

(** The cell [i] of a buffer of [total] bytes; [x] is the checksum that
    the last copy stores. *)
Definition layout (hdr sig : option (list cell))
    (cmdline parameter bootstub kernel ramdisk : list cell)
    (total : Z) (x : cell) (i : nat) : option cell :=
  let h := from_option (λ d, len d) 0 hdr in
  let s := from_option (λ d, len d) 0 sig in
  let img_size := h + s + 4096 + len bootstub + len kernel + len ramdisk in
  let first :=
    match hdr with
    | Some d => copied i 0 d h (Some None)
    | None => Some None
    end in
  let second :=
    match sig, hdr with
    | Some d, _ =>
        copied i (h + s + 1024 + 16) sig_magic 8 (copied i h d s first)
    | None, Some d =>
        copied i 52
          (store_cell_u32 ((λ v, to_u32 (v + 1)) <$> load_u32 (region d 52 4)))
          4 first
    | None, None => first
    end in
  let body :=
    copied i img_size
      (replicate (Z.to_nat (total - img_size)) (Some 255)) (total - img_size)
      (copied i (h + s + 4096 + len bootstub + len kernel) ramdisk
         (len ramdisk)
         (copied i (h + s + 4096 + len bootstub) kernel (len kernel)
            (copied i (h + s + 4096) bootstub (len bootstub)
               (copied i (h + s + 1024 + 8) parameter (len parameter)
                  (copied i (h + s + 1024 + 4) (store_u32 (len ramdisk)) 4
                     (copied i (h + s + 1024) (store_u32 (len kernel)) 4
                        (copied i (h + s) cmdline (len cmdline)
                           second))))))) in
  match hdr with
  | Some _ =>
      copied i 7 [x] 1 (copied i 48 (store_u32 (total / 512 - 1)) 4 body)
  | None => body
  end.

(** More sample directories: one where the bootstub and what follows it
    are missing, and the small one with a header and no signature. *)
Module Dirs.

Definition partial_dir : gmap string (list cell) :=
  <["cmdline.txt" := Some <$> [97; 98; 99]]>
    (<["parameter" := Samples.parameter9]> ∅).

Definition unsigned_dir : gmap string (list cell) :=
  <["hdr" := Samples.hdr]> Samples.small_dir.

(** A directory whose image is long enough to be unpacked again, with a
    kernel and a ramdisk far below the accepted sizes; its image, and the
    file that holds it when the bytes that [pack] left indeterminate
    happen to be 0. *)
Definition bootable_dir : gmap string (list cell) :=
  <["cmdline.txt" := Samples.cmdline]>
    (<["parameter" := Samples.parameter]>
      (<["bootstub" := Samples.bootstub]>
        (<["kernel" := replicate 5 (Some 7)]>
          (<["ramdisk.cpio.gz" := replicate 3 (Some 9)]> ∅)))).

Definition packed_image : list cell :=
  default [] (pack bootable_dir true ≫= p_image).

Definition written_file : list Z := default 0 <$> packed_image.

End Dirs.
(** * Properties *)

(** ** Streams and memory *)

Lemma ahead_length f n :
  0 ≤ offset f →
  len (ahead f n) = Z.max 0 (Z.min n (len (contents f) - offset f)).
Proof.
  intros Hf. unfold ahead. rewrite length_take, length_drop. lia.
Qed.

Lemma ahead_take f n m :
  0 ≤ n ≤ m → ahead f n = take (Z.to_nat n) (ahead f m).
Proof.
  intros H. unfold ahead. rewrite take_take. f_equal. lia.
Qed.

Lemma ahead_next f b w n :
  0 ≤ offset f → 0 ≤ n →
  ahead f (1 + n) = b :: w →
  ahead (mkFILE (contents f) (offset f + 1)) n = w.
Proof.
  intros Hf Hn. unfold ahead. simpl.
  replace (Z.to_nat (1 + n)) with (S (Z.to_nat n)) by lia.
  replace (Z.to_nat (offset f + 1)) with (S (Z.to_nat (offset f))) by lia.
  destruct (drop (Z.to_nat (offset f)) (contents f)) as [|x l] eqn:E;
    [discriminate|].
  simpl. intros [= _ <-].
  change (S (Z.to_nat (offset f))) with (1 + Z.to_nat (offset f))%nat.
  rewrite Nat.add_comm, <- drop_drop, E. reflexivity.
Qed.

Lemma ahead_cons f b w n :
  0 ≤ offset f → ahead f n = b :: w →
  0 < n ∧ offset f < len (contents f).
Proof.
  intros Hf E. pose proof (ahead_length f n Hf) as L.
  rewrite E in L. simpl in L. lia.
Qed.

Lemma ahead_nil f n :
  0 ≤ offset f → ahead f n = [] →
  n ≤ 0 ∨ len (contents f) ≤ offset f.
Proof.
  intros Hf E. pose proof (ahead_length f n Hf) as L.
  rewrite E in L. simpl in L. lia.
Qed.

Lemma fseek_cur_contents f d : contents (fseek_cur f d) = contents f.
Proof. unfold fseek_cur. by case_decide. Qed.

Lemma fseek_cur_offset f d :
  offset (fseek_cur f d) =
  if decide (0 ≤ offset f + d) then offset f + d else offset f.
Proof. unfold fseek_cur. by case_decide. Qed.

Lemma head_ahead f n : 1 ≤ n → head (ahead f n) = head (ahead f 1).
Proof.
  intros Hn. rewrite (ahead_take f 1 n) by lia.
  by destruct (ahead f n).
Qed.

Lemma fresh_head (l : list Z) k n :
  mjoin (((Some <$> l) ++ drop k (malloc n)) !! 0%nat) = head l.
Proof.
  destruct l as [|x l]; simpl; [|done].
  unfold malloc. rewrite lookup_drop.
  destruct (replicate (Z.to_nat n) None !! (k + 0)%nat) as [c|] eqn:E; [|done].
  apply lookup_replicate in E as [-> _]. done.
Qed.

Lemma FILE_eta f : mkFILE (contents f) (offset f) = f.
Proof. by destruct f. Qed.

Lemma memcpy_length dst off src n d :
  memcpy dst off src n = Some d → length d = length dst.
Proof.
  unfold memcpy. case_decide as H; [|done]. intros [= <-].
  rewrite !length_app, !length_take, length_drop. lia.
Qed.

Lemma memcpy_lookup dst off src n d (i : nat) :
  memcpy dst off src n = Some d →
  d !! i = if decide (off ≤ Z.of_nat i < off + n)
           then src !! (i - Z.to_nat off)%nat else dst !! i.
Proof.
  unfold memcpy. case_decide as H; [|done]. intros [= <-].
  destruct (decide (Z.of_nat i < off)) as [Hlt|Hge].
  - rewrite lookup_app_l by (rewrite length_take; lia).
    rewrite lookup_take_lt by lia. by rewrite decide_False by lia.
  - rewrite lookup_app_r by (rewrite length_take; lia).
    rewrite length_take.
    replace (Z.to_nat off `min` length dst)%nat with (Z.to_nat off) by lia.
    destruct (decide (Z.of_nat i < off + n)) as [Hin|Hout].
    + rewrite lookup_app_l by (rewrite length_take; lia).
      rewrite lookup_take_lt by lia. by rewrite decide_True by lia.
    + rewrite lookup_app_r by (rewrite length_take; lia).
      rewrite length_take, lookup_drop, decide_False by lia. f_equal. lia.
Qed.

Lemma region_length {A} (buf : list A) off n :
  0 ≤ off → 0 ≤ n → off + n ≤ len buf → len (region buf off n) = n.
Proof.
  intros. unfold region. rewrite length_take, length_drop. lia.
Qed.

Lemma region_lookup {A} (buf : list A) off n (i : nat) :
  0 ≤ off → Z.of_nat i < n → region buf off n !! i = buf !! (Z.to_nat off + i)%nat.
Proof.
  intros. unfold region. rewrite lookup_take_lt by lia. apply lookup_drop.
Qed.

(** What [memcpy] wrote, and what it left alone. *)
Lemma memcpy_region dst off src n d :
  memcpy dst off src n = Some d → region d off n = take (Z.to_nat n) src.
Proof.
  intros Hd. assert (0 ≤ n ∧ n ≤ len src ∧ 0 ≤ off ∧ off + n ≤ len dst)
    as H by (unfold memcpy in Hd; by case_decide).
  apply list_eq. intros i.
  destruct (decide (Z.of_nat i < n)) as [Hi|Hi].
  - rewrite region_lookup, (memcpy_lookup _ _ _ _ _ _ Hd) by lia.
    rewrite decide_True, lookup_take_lt by lia. f_equal. lia.
  - unfold region. by rewrite !lookup_take_ge by lia.
Qed.

Lemma memcpy_region_other dst off src n d o k :
  memcpy dst off src n = Some d →
  0 ≤ o → o + k ≤ off ∨ off + n ≤ o →
  region d o k = region dst o k.
Proof.
  intros Hd Ho Hdisj. apply list_eq. intros i.
  destruct (decide (Z.of_nat i < k)) as [Hi|Hi].
  - rewrite !region_lookup, (memcpy_lookup _ _ _ _ _ _ Hd) by lia.
    by rewrite decide_False by lia.
  - unfold region. by rewrite !lookup_take_ge by lia.
Qed.

Lemma memcpy_is_Some dst off src n :
  0 ≤ n → n ≤ len src → 0 ≤ off → off + n ≤ len dst →
  is_Some (memcpy dst off src n).
Proof. intros. unfold memcpy. by rewrite decide_True by lia. Qed.

Lemma to_int_small z : 0 ≤ z < 2 ^ 31 → to_int z = z.
Proof. intros. unfold to_int. rewrite Z.mod_small; lia. Qed.

Lemma to_u32_small z : 0 ≤ z < 2 ^ 32 → to_u32 z = z.
Proof. intros. unfold to_u32. rewrite Z.mod_small; lia. Qed.

Lemma malloc_length n : 0 ≤ n → len (malloc n) = n.
Proof. intros. unfold malloc. rewrite length_replicate. lia. Qed.

Lemma memcpy_None dst off src n :
  memcpy dst off src n = None →
  0 ≤ n → n ≤ len src → 0 ≤ off → off + n ≤ len dst → False.
Proof.
  intros Hm ????. destruct (memcpy_is_Some dst off src n) as [d Hd]; try done.
  congruence.
Qed.

Lemma memcpy_len dst off src n d t :
  memcpy dst off src n = Some d → len dst = t → len d = t.
Proof. intros Hm <-. by rewrite (memcpy_length _ _ _ _ _ Hm). Qed.

Lemma drop_len {A} (l : list A) (n : nat) t :
  len l = t → Z.of_nat n ≤ t → len (drop n l) = t - Z.of_nat n.
Proof. intros <- ?. rewrite length_drop. lia. Qed.

Lemma store_cell_u32_length v : len (store_cell_u32 v) = 4.
Proof. by destruct v. Qed.

(** One [memcpy] of a straight-line sequence: name its result, record
    the size of the buffer, and discharge the bounds. *)
Ltac memcpy_bounds :=
  repeat match goal with
  | |- context [length (replicate _ _)] => rewrite length_replicate
  | |- context [length (store_cell_u32 _)] => rewrite store_cell_u32_length
  | H : len ?b = _ |- context [length (drop ?n ?b)] =>
      rewrite (drop_len b n _ H) by lia
  end; simpl length; lia.

Ltac memcpy_step :=
  match goal with
  | |- context [memcpy ?b ?off ?src ?n] =>
      let d := fresh "b" in
      let Hm := fresh "Hm" in
      let Hl := fresh "Hl" in
      destruct (memcpy b off src n) as [d|] eqn:Hm;
      [ assert (Hl := memcpy_len _ _ _ _ _ _ Hm ltac:(eassumption));
        try (simpl mbind)
      | exfalso; apply (memcpy_None _ _ _ _ Hm); memcpy_bounds ]
  end.

(** Follow a region of the final buffer back through the copies that
    did not touch it. *)
Ltac chase :=
  repeat match goal with
  | H : memcpy ?b ?off ?src ?n = Some ?d |- context [region ?d ?o ?k] =>
      rewrite (memcpy_region_other b off src n d o k H) by lia
  end.

Lemma take_len {A} (l : list A) : take (Z.to_nat (len l)) l = l.
Proof. apply take_ge. lia. Qed.

(** ** The content probe *)

Section Probe.

Variable isalnum : Z → Z.

Lemma check_byte_verdict f size min :
  0 ≤ offset f →
  fst <$> check_byte isalnum f size min =
  c ← probed (ahead f 2) size;
  Some (if decide (isalnum c > min ∧ isalnum c < size) then 1 else 0).
Proof.
  intros Hf. unfold check_byte, probed, fread.
  destruct (decide (size > 1)) as [Hs|Hs].
  - rewrite (ahead_take f 1 2) by lia.
    destruct (ahead f 2) as [|b w] eqn:Ew; simpl; [done|].
    change (Z.of_nat 1) with 1.
    destruct (decide (b = 0)) as [->|Hb]; simpl.
    + rewrite fresh_head, head_ahead by lia.
      rewrite (ahead_next f 0 w 1) by (simpl; done || lia).
      destruct (head w); simpl; [|done]. by case_decide.
    + rewrite fresh_head. unfold fseek_cur. simpl.
      destruct (decide (0 ≤ offset f + 1 + -1)); [simpl|lia].
      replace (offset f + 1 + -1) with (offset f) by lia.
      rewrite FILE_eta, head_ahead, (ahead_take f 1 2), Ew by lia.
      simpl. by case_decide.
  - simpl. rewrite fresh_head.
    destruct (decide (size = 1)) as [->|Hs1].
    + rewrite (ahead_take f 1 2) by lia.
      destruct (ahead f 2); simpl; [done|]. by case_decide.
    + unfold ahead. replace (Z.to_nat size) with 0%nat by lia. done.
Qed.

(** Where the probe leaves the stream: it reads up to the end of its
    window, or of the file, and seeks back by the size of the window. *)
Lemma check_byte_stream f size min v f' :
  0 ≤ offset f → 1 < size →
  check_byte isalnum f size min = Some (v, f') →
  contents f' = contents f ∧ offset f < len (contents f) ∧
  offset f' =
    (if decide (size ≤ Z.min (offset f + size) (len (contents f)))
     then Z.min (offset f + size) (len (contents f)) - size
     else Z.min (offset f + size) (len (contents f))).
Proof.
  intros Hf Hs. unfold check_byte, fread.
  rewrite decide_True by lia.
  destruct (ahead f 1) as [|b w] eqn:Ew; simpl; [done|].
  apply ahead_cons in Ew as Hlt; [|done].
  change (Z.of_nat (S (length w))) with (len (b :: w)). rewrite <- Ew.
  rewrite (ahead_length f 1) by done.
  replace (Z.max 0 (Z.min 1 (len (contents f) - offset f))) with 1 by lia.
  assert (∀ g n c r,
    (if decide (isalnum c > min ∧ isalnum c < size)
     then Some (1, fseek_cur (mkFILE (contents f) (offset g + len (ahead g n)))
                     (- size))
     else Some (0, fseek_cur (mkFILE (contents f) (offset g + len (ahead g n)))
                     (- size))) = Some (v, f') → 
    0 ≤ offset g → contents g = contents f →
    offset g + Z.max 0 (Z.min n (len (contents f) - offset g)) = r →
    contents f' = contents f ∧
    offset f' = if decide (0 ≤ r - size) then r - size else r) as Hend.
  { intros g n c r Hv Hg Hc Hr.
    rewrite ahead_length, Hc, Hr in Hv by done.
    assert (f' = fseek_cur (mkFILE (contents f) r) (- size)) as ->
      by (case_decide; congruence).
    rewrite fseek_cur_contents, fseek_cur_offset. simpl.
    split; [done|]. repeat case_decide; lia. }
  destruct (decide (b = 0)) as [->|Hb]; simpl.
  - rewrite fresh_head.
    destruct (head _) as [c|] eqn:Ec; simpl; [|done].
    intros Hv.
    eapply (Hend (mkFILE (contents f) (offset f + 1)) (size - 1)) in Hv;
      [|simpl; lia|done|reflexivity].
    destruct Hv as [-> ->]. simpl. split_and!; [done|lia|].
    assert (len (ahead (mkFILE (contents f) (offset f + 1)) (size - 1)) ≠ 0)
      as Hne by (destruct (ahead _ (size - 1)); [done|simpl; lia]).
    rewrite ahead_length in Hne by (simpl; lia). simpl in Hne.
    repeat case_decide; lia.
  - assert (fseek_cur (mkFILE (contents f) (offset f + 1)) (-1) = f) as ->.
    { unfold fseek_cur. simpl. rewrite decide_True by lia.
      replace (offset f + 1 + -1) with (offset f) by lia. apply FILE_eta. }
    rewrite fresh_head.
    destruct (head _) as [c|] eqn:Ec; simpl; [|done].
    intros Hv. eapply (Hend f size) in Hv; [|done|done|reflexivity].
    destruct Hv as [-> ->].
    split_and!; [done|lia|]. repeat case_decide; lia.
Qed.

(** C10: the verdict of the content probe is a function of the next two
    bytes of the stream: two streams that agree on them get the same
    verdict from [check_byte] with the same [size] and [min], whatever
    follows in the window. *)
Theorem check_byte_first_two_bytes f1 f2 size min :
  0 ≤ offset f1 → 0 ≤ offset f2 →
  ahead f1 2 = ahead f2 2 →
  fst <$> check_byte isalnum f1 size min =
  fst <$> check_byte isalnum f2 size min.
Proof.
  intros H1 H2 Hw. rewrite !check_byte_verdict by done. by rewrite Hw.
Qed.

End Probe.

Lemma check_byte_first_two_bytes_witness :
  fst <$> check_byte Libc.isalnum_mask (mkFILE [97; 98; 1; 2] 0) 4 1 =
  fst <$> check_byte Libc.isalnum_mask (mkFILE [5; 97; 98; 200; 201] 1) 4 1.
Proof.
  apply check_byte_first_two_bytes; [simpl; lia | simpl; lia | reflexivity].
Defined.

Lemma load_store_u32 v : 0 ≤ v < 2 ^ 32 → load_u32 (store_u32 v) = Some v.
Proof.
  intros Hv. unfold load_u32, store_u32. f_equal.
  pose proof (Z.div_mod v 256 ltac:(lia)).
  pose proof (Z.div_mod (v / 256) 256 ltac:(lia)).
  pose proof (Z.div_mod (v / 65536) 256 ltac:(lia)).
  replace (v / 256 / 256) with (v / 65536) in *
    by (rewrite Z.div_div by lia; done).
  replace (v / 65536 / 256) with (v / 16777216) in *
    by (rewrite Z.div_div by lia; done).
  assert (0 ≤ v / 16777216 < 256)
    by (split; [apply Z.div_pos; lia|apply Z.div_lt_upper_bound; lia]).
  rewrite (Z.mod_small (v / 16777216)) by lia. lia.
Qed.

(** ** The Segment Locator *)

Lemma region_len {A} (buf : list A) off n :
  0 ≤ off → len (region buf off n) = Z.max 0 (Z.min n (len buf - off)).
Proof.
  intros. unfold region. rewrite length_take, length_drop. lia.
Qed.

Lemma write_buffer_at bytes o size name dir :
  write_buffer (mkFILE bytes o) size name dir =
  (mkFILE bytes (o + len (region bytes o size)),
   <[name := cut bytes o size]> dir).
Proof.
  unfold write_buffer, fread, cut, malloc, ahead, region. simpl.
  f_equal. f_equal. rewrite drop_replicate. apply take_ge.
  rewrite length_app, length_fmap, length_replicate, length_take. lia.
Qed.

Lemma strlen_fresh (l : list Z) k :
  strlen ((Some <$> l) ++ replicate k None) = strlen (Some <$> l).
Proof.
  induction l as [|x l IH]; simpl.
  - by destruct k.
  - case_decide; [done|]. f_equal. apply IH.
Qed.

Lemma strlen_lt (l : list Z) n :
  strlen (Some <$> l) = Some n → (n < length l)%nat.
Proof.
  revert n. induction l as [|x l IH]; intros n; csimpl; [done|].
  case_decide; [intros [= <-]; simpl; lia|].
  destruct (strlen (Some <$> l)) as [m|] eqn:E; simpl; [|done].
  intros [= <-]. specialize (IH m eq_refl). lia.
Qed.

Lemma fread_at buf size bytes o :
  fread buf size (mkFILE bytes o) =
  ((Some <$> region bytes o size) ++ drop (length (region bytes o size)) buf,
   mkFILE bytes (o + len (region bytes o size))).
Proof. reflexivity. Qed.

Lemma strlen_take (l : list Z) n k :
  strlen (Some <$> l) = Some n →
  take n ((Some <$> l) ++ k) = Some <$> take n l.
Proof.
  intros Hn. apply strlen_lt in Hn.
  rewrite take_app_le by (rewrite length_fmap; lia). by rewrite fmap_take.
Qed.

Lemma region_take {A} (buf : list A) o (n : nat) m :
  Z.of_nat n ≤ m → take n (region buf o m) = region buf o (Z.of_nat n).
Proof.
  intros. unfold region. rewrite take_take. f_equal. lia.
Qed.

Lemma drop_malloc k n : drop k (malloc n) = replicate (Z.to_nat n - k) None.
Proof. apply drop_replicate. Qed.

Lemma load_u32_app (l : list Z) k :
  length l = 4%nat → load_u32 ((Some <$> l) ++ k) = load_u32 (Some <$> l).
Proof. intros. by do 4 (destruct l as [|? l]; try done). Qed.

Lemma load_u32_is_Some (l : list Z) :
  length l = 4%nat → is_Some (load_u32 (Some <$> l)).
Proof. intros. by do 4 (destruct l as [|? l]; try done). Qed.

Lemma cut_min bytes x n :
  0 ≤ x → cut bytes (Z.min x (len bytes)) n = cut bytes x n.
Proof.
  intros Hx. destruct (decide (x ≤ len bytes)) as [Hle|Hgt].
  - by rewrite Z.min_l by lia.
  - rewrite Z.min_r by lia. unfold cut, region.
    by rewrite !drop_ge by lia.
Qed.

Lemma cut_length bytes o n : 0 ≤ n → len (cut bytes o n) = n.
Proof.
  intros. unfold cut. rewrite length_app, length_fmap, length_replicate.
  assert (length (region bytes o n) ≤ Z.to_nat n)%nat
    by (unfold region; rewrite length_take; lia). lia.
Qed.

Lemma cut_full bytes o n :
  0 ≤ o → o + n ≤ len bytes → cut bytes o n = Some <$> region bytes o n.
Proof.
  intros. unfold cut. pose proof (region_len bytes o n).
  replace (Z.to_nat n - length (region bytes o n))%nat with 0%nat by lia.
  apply app_nil_r.
Qed.

(** The artifacts of the reference locator, name by name. *)
Lemma segments_files bytes hdr h s n b ks rs :
  let dir := u_files (segments bytes hdr h s n b ks rs) in
  dir !! "hdr" = (if hdr then Some (cut bytes 0 512) else None) ∧
  dir !! "sig" = (if decide (s > 0) then Some (cut bytes h s) else None) ∧
  dir !! "cmdline.txt" = Some (Some <$> region bytes (h + s) n) ∧
  dir !! "parameter" = Some (cut bytes (h + s + 1032) 8) ∧
  dir !! "bootstub" = Some (cut bytes (h + s + 4096) b) ∧
  dir !! "kernel" =
    (if decide (ks < 500000 ∨ ks > 15000000) then None
     else Some (cut bytes (h + s + 4096 + b) ks)) ∧
  dir !! "ramdisk.cpio.gz" =
    (if decide (ks < 500000 ∨ ks > 15000000) then None
     else if decide (rs < 10000 ∨ rs > 300000000) then None
     else Some (cut bytes (h + s + 4096 + b + ks) rs)).
Proof.
  unfold segments.
  destruct hdr, (decide (s > 0)), (decide (ks < 500000 ∨ ks > 15000000)),
    (decide (rs < 10000 ∨ rs > 300000000)); simpl;
    split_and!; by simplify_map_eq.
Qed.

Lemma strlen_spec (l : list Z) n :
  strlen (Some <$> l) = Some n →
  l !! n = Some 0 ∧ Forall (λ c, c ≠ 0) (take n l).
Proof.
  revert n. induction l as [|x l IH]; intros n; csimpl; [done|].
  case_decide as Hx; [intros [= <-]; by subst|].
  destruct (strlen (Some <$> l)) as [m|] eqn:E; simpl; [|done].
  intros [= <-]. destruct (IH m eq_refl) as [H0 Hall]. simpl. split; [done|].
  by constructor.
Qed.

Lemma segments_stdout bytes hdr h s n b ks rs x :
  let out := u_stdout (segments bytes hdr h s n b ks rs) in
  (("header size", x) ∈ out ↔ x = h) ∧
  (("sig size", x) ∈ out ↔ x = s) ∧
  (("bootstub size", x) ∈ out ↔ x = b).
Proof.
  unfold segments.
  destruct (decide (ks < 500000 ∨ ks > 15000000)),
    (decide (rs < 10000 ∨ rs > 300000000)); simpl;
    rewrite ?elem_of_cons, ?elem_of_nil;
    intuition (try congruence); subst; auto.
Qed.

Lemma segments_status bytes hdr h s n b ks rs :
  let r := segments bytes hdr h s n b ks rs in
  (ks < 500000 ∨ ks > 15000000 →
     u_status r = 1 ∧ u_stderr r = [kernel_size_likely_wrong]) ∧
  (¬ (ks < 500000 ∨ ks > 15000000) → rs < 10000 ∨ rs > 300000000 →
     u_status r = 1 ∧ u_stderr r = [ramdisk_size_likely_wrong]) ∧
  (¬ (ks < 500000 ∨ ks > 15000000) → ¬ (rs < 10000 ∨ rs > 300000000) →
     u_status r = 0 ∧ u_stderr r = []).
Proof.
  unfold segments.
  destruct (decide (ks < 500000 ∨ ks > 15000000)),
    (decide (rs < 10000 ∨ rs > 300000000)); simpl; split_and!; done.
Qed.

Section Locator.

Variable isalnum : Z → Z.

Lemma check_byte_at bytes o size min v f' :
  0 ≤ o → 1 < size →
  check_byte isalnum (mkFILE bytes o) size min = Some (v, f') →
  ∃ o', f' = mkFILE bytes o' ∧ o < len bytes ∧
    ((size ≤ Z.min (o + size) (len bytes)
      ∧ o' = Z.min (o + size) (len bytes) - size)
     ∨ (Z.min (o + size) (len bytes) < size
        ∧ o' = Z.min (o + size) (len bytes))).
Proof.
  intros Ho Hs Hc.
  apply check_byte_stream in Hc as (Hc & Hlt & Hoff); [|done..].
  simpl in *. exists (offset f'). split_and!; [|done|].
  - destruct f'. simpl in *. by subst.
  - case_decide; lia.
Qed.

Lemma fseek_cur_at bytes o d :
  0 ≤ o + d → fseek_cur (mkFILE bytes o) d = mkFILE bytes (o + d).
Proof. intros. unfold fseek_cur. simpl. by rewrite decide_True. Qed.

Lemma sig_step bytes o d v f' :
  0 ≤ o → 0 ≤ d →
  check_byte isalnum (fseek_cur (mkFILE bytes o) d) 4 1 = Some (v, f') →
  ∃ o', f' = mkFILE bytes o' ∧ o + d < len bytes ∧ 0 ≤ o' ∧
    ((o + d + 4 ≤ len bytes ∧ o' = o + d)
     ∨ (len bytes < o + d + 4 ∧ len bytes - 4 ≤ o' ≤ len bytes)).
Proof.
  intros Ho Hd. rewrite fseek_cur_at by lia. intros Hc.
  apply check_byte_at in Hc as (o' & -> & Hlt & Hoff); [|lia..].
  exists o'. split_and!; [done..|lia|lia].
Qed.

Lemma sig_loop_at bytes o f' :
  0 ≤ o →
  sig_loop isalnum sig_deltas (mkFILE bytes o) = Some f' →
  ∃ o', f' = mkFILE bytes o' ∧ 0 ≤ o' ≤ len bytes ∧
    (o' = o ∨ o' = o + 480 ∨ o' = o + 728 ∨ o' = o + 1024
     ∨ len bytes - 4 ≤ o').
Proof.
  intros Ho. unfold sig_deltas. cbn [sig_loop].
  destruct (check_byte _ _ 4 1) as [[v1 f1]|] eqn:E1; [|done].
  apply sig_step in E1 as (o1 & -> & Hl1 & Hp1 & Hd1); [|lia..]. simpl.
  case_decide; [intros [= <-]; exists o1; split; [done|lia]|].
  destruct (check_byte _ _ 4 1) as [[v2 f2]|] eqn:E2; [|done].
  apply sig_step in E2 as (o2 & -> & Hl2 & Hp2 & Hd2); [|lia..]. simpl.
  case_decide; [intros [= <-]; exists o2; split; [done|lia]|].
  destruct (check_byte _ _ 4 1) as [[v3 f3]|] eqn:E3; [|done].
  apply sig_step in E3 as (o3 & -> & Hl3 & Hp3 & Hd3); [|lia..]. simpl.
  case_decide; [intros [= <-]; exists o3; split; [done|lia]|].
  destruct (check_byte _ _ 4 1) as [[v4 f4]|] eqn:E4; [|done].
  apply sig_step in E4 as (o4 & -> & Hl4 & Hp4 & Hd4); [|lia..]. simpl.
  intros Hf. assert (f' = mkFILE bytes o4) as -> by (case_decide; congruence).
  exists o4. split; [done|lia].
Qed.

Lemma unpack_segments bytes r :
  unpack isalnum (Some bytes) = Some r →
  ∃ v0 s n v2 ks rs,
    let h := if decide (v0 = 0) then 512 else 0 in
    let b := (if decide (v2 = 0) then 4096 else 8192)
             - (if decide (h + s + 8194 ≤ len bytes) then 0 else 1) in
    fst <$> check_byte isalnum (fopen_rb bytes) 4 1 = Some v0 ∧
    sig_loop isalnum sig_deltas (mkFILE bytes h) = Some (mkFILE bytes (h + s)) ∧
    (s = 0 ∨ s = 480 ∨ s = 728 ∨ s = 1024) ∧
    h + s + 8192 < len bytes ∧
    strlen (Some <$> region bytes (h + s) 1024) = Some n ∧
    fst <$> check_byte isalnum (mkFILE bytes (h + s + 8192)) 2 0 = Some v2 ∧
    load_u32 (Some <$> region bytes (h + s + 1024) 4) = Some ks ∧
    load_u32 (Some <$> region bytes (h + s + 1028) 4) = Some rs ∧
    r = segments bytes (bool_decide (v0 = 0)) h s (Z.of_nat n) b ks rs.
Proof.
  unfold unpack, fopen_rb, ftell.
  destruct (check_byte _ _ 4 1) as [[v0 f1]|] eqn:E0; [|done].
  apply check_byte_at in E0 as E0'; [|lia..].
  destruct E0' as (o1 & -> & Hl1 & Ho1). cbn [mbind option_bind].
  assert (o1 = 0 ∨ (len bytes < 4 ∧ o1 = len bytes)) as Ho1' by lia.
  clear Ho1. rename Ho1' into Ho1.
  (* the header *)
  assert (∃ o2,
    (if decide (v0 = 0)
     then write_buffer (mkFILE bytes o1) 512 "hdr" ∅
     else (mkFILE bytes o1, ∅)) =
    (mkFILE bytes o2,
     if decide (v0 = 0) then <["hdr" := cut bytes o1 512]> ∅ else ∅) ∧
    o1 ≤ o2 ∧
    ((v0 = 0 ∧ o2 = o1 + len (region bytes o1 512))
     ∨ (v0 ≠ 0 ∧ o2 = o1))) as (o2 & -> & Hp2 & Ho2).
  { case_decide.
    - rewrite write_buffer_at. eexists. split; [done|]. lia.
    - eexists. split; [done|]. lia. }
  cbv beta iota. cbn [offset contents].
  (* the signature *)
  destruct (sig_loop _ _ _) as [f3|] eqn:E3; [|done].
  apply sig_loop_at in E3 as E3'; [|lia].
  destruct E3' as (o3 & -> & Hp3 & Ho3). cbn [mbind option_bind offset contents].
  pose proof (to_int_small o2) as Hh.
  set (hh := to_int o2) in *. clearbody hh.
  pose proof (to_int_small (o3 - hh)) as Hss.
  set (ss := to_int (o3 - hh)) in *. clearbody ss.
  match goal with |- context [write_buffer _ ss "sig" ?d] =>
    remember d as dirA eqn:HdirA
  end.
  assert (∃ p4 o4,
    (if decide (ss > 0)
     then write_buffer (fseek_cur (mkFILE bytes o3) (- ss)) ss "sig" dirA
     else (mkFILE bytes o3, dirA)) =
    (mkFILE bytes o4,
     if decide (ss > 0) then <["sig" := cut bytes p4 ss]> dirA else dirA) ∧
    o3 ≤ o4 ∧
    (0 ≤ o3 - ss → o4 = o3 ∧ p4 = o3 - ss)) as (p4 & o4 & -> & Hp4 & Ho4).
  { destruct (decide (ss > 0)).
    - unfold fseek_cur. cbn [offset contents].
      destruct (decide (0 ≤ o3 + - ss)).
      + rewrite write_buffer_at.
        exists (o3 + - ss). eexists. split; [done|].
        rewrite region_len by lia. clear Ho1 Ho2 Ho3. lia.
      + rewrite write_buffer_at.
        exists o3. eexists. split; [done|]. lia.
    - exists (o3 - ss). eexists. split; [done|]. lia. }
  cbv beta iota.
  match goal with |- context [write_string _ _ ?d] =>
    remember d as dirB eqn:HdirB
  end.
  (* the command line *)
  rewrite fread_at. cbv beta iota.
  unfold write_string, sizeof_cmdline.
  rewrite drop_malloc, strlen_fresh.
  destruct (strlen (Some <$> region bytes o4 1024)) as [n|] eqn:En; [|done].
  cbn [mbind option_bind].
  rewrite (strlen_take _ _ _ En), region_take
    by (apply strlen_lt in En; pose proof (region_len bytes o4 1024);
        clear Ho1 Ho2 Ho3 Ho4; lia).
  remember (o4 + len (region bytes o4 1024)) as o5 eqn:Ho5.
  (* the size fields and the parameter block *)
  rewrite fread_at. cbv beta iota.
  remember (o5 + len (region bytes o5 4)) as o6 eqn:Ho6.
  rewrite fread_at. cbv beta iota.
  remember (o6 + len (region bytes o6 4)) as o7 eqn:Ho7.
  rewrite write_buffer_at. cbv beta iota.
  remember (o7 + len (region bytes o7 8)) as o8 eqn:Ho8.
  assert (0 ≤ o8 ∧ o3 ≤ o8) as [Hp8 Hle8] by lia.
  rewrite !fseek_cur_at by lia.
  (* the bootstub *)
  destruct (check_byte _ _ 2 0) as [[v2 f9]|] eqn:E9; [|done].
  apply check_byte_at in E9 as E9'; [|lia..].
  destruct E9' as (o9 & -> & Hl9 & Ho9). cbn [mbind option_bind].
  (* the stream is long enough for all the reads so far *)
  assert (o3 + 7152 < len bytes) as HL by lia.
  assert (o1 = 0) as -> by lia. clear Ho1.
  assert (o2 = if decide (v0 = 0) then 512 else 0) as Eo2.
  { destruct (decide (v0 = 0)); destruct Ho2 as [[? ->]|[? ->]]; try done.
    rewrite region_len by lia. lia. }
  assert (0 ≤ o2 ≤ 512) as Hb2 by (destruct (decide (v0 = 0)); lia).
  assert (hh = o2) as -> by (apply Hh; lia). clear Hh Ho2.
  assert (0 ≤ o3 - o2 ≤ 1024) as Hs3 by lia.
  assert (ss = o3 - o2) as Ess by (apply Hss; lia). clear Hss.
  assert (o4 = o3 ∧ p4 = o2) as [-> ->] by lia. clear Ho4 Hp4.
  assert (o3 = o2 + ss) as -> by lia.
  assert (ss = 0 ∨ ss = 480 ∨ ss = 728 ∨ ss = 1024) as Hsig by lia.
  clear Ho3 Ess Hs3.
  rewrite region_len in Ho5, Ho6, Ho7, Ho8 by lia.
  assert (o5 = o2 + ss + 1024) as -> by lia.
  assert (o6 = o2 + ss + 1028) as -> by lia.
  assert (o7 = o2 + ss + 1032) as -> by lia.
  assert (o8 = o2 + ss + 1040) as -> by lia.
  clear Ho5 Ho6 Ho7 Ho8.
  set (b := (if decide (v2 = 0) then 4096 else 8192)
            - (if decide (o2 + ss + 8194 ≤ len bytes) then 0 else 1)).
  assert (4095 ≤ b ≤ 8192) as Hb by (unfold b; repeat case_decide; lia).
  assert ((if decide (v2 ≠ 0)
           then fseek_cur (mkFILE bytes o9) 4096 else mkFILE bytes o9) =
          mkFILE bytes (o2 + ss + 4096 + b)) as ->.
  { unfold b.
    destruct (decide (v2 = 0)), (decide (o2 + ss + 8194 ≤ len bytes));
      [rewrite decide_False by (by intros ?)..
      |rewrite decide_True, fseek_cur_at by (done || lia)
      |rewrite decide_True, fseek_cur_at by (done || lia)];
      f_equal; lia. }
  cbn [offset].
  replace (o2 + ss + 4096 + b - o2 - ss - 4096) with b by lia.
  rewrite (to_int_small b), fseek_cur_at by lia.
  replace (o2 + ss + 4096 + b + - b) with (o2 + ss + 4096) by lia.
  rewrite write_buffer_at, region_len by lia. cbv beta iota.
  replace (o2 + ss + 4096 + Z.max 0 (Z.min b (len bytes - (o2 + ss + 4096))))
    with (Z.min (o2 + ss + 4096 + b) (len bytes)) by lia.
  assert (∀ o, o2 + ss + 1024 ≤ o ≤ o2 + ss + 1028 →
               length (region bytes o 4) = 4%nat) as Hfield.
  { intros o Ho. pose proof (region_len bytes o 4). lia. }
  rewrite !load_u32_app by (apply Hfield; lia).
  destruct (load_u32 (Some <$> region bytes (o2 + ss + 1024) 4))
    as [ks|] eqn:Eks; [|done].
  destruct (load_u32_is_Some (region bytes (o2 + ss + 1028) 4))
    as [rs Ers]; [apply Hfield; lia|].
  rewrite Ers. cbn [mbind option_bind].
  intros Hr. exists v0, ss, n, v2, ks, rs. cbv zeta.
  rewrite <- Eo2. fold b.
  split_and!; [done|done|done|lia|done| |done|done|].
  { replace (o2 + ss + 8192) with (o2 + ss + 1040 + (3072 - 16) + 4096)
      by lia. by rewrite E9. }
  assert (dirB = if decide (ss > 0)
                 then <["sig" := cut bytes o2 ss]>
                        (if bool_decide (v0 = 0)
                         then <["hdr" := cut bytes 0 512]> ∅ else ∅)
                 else if bool_decide (v0 = 0)
                      then <["hdr" := cut bytes 0 512]> ∅ else ∅) as ->.
  { subst dirB dirA. by destruct (decide (v0 = 0)), (decide (ss > 0));
      rewrite ?bool_decide_eq_true_2, ?bool_decide_eq_false_2 by done. }
  unfold segments.
  destruct (decide (ks < 500000 ∨ ks > 15000000)) as [Hk|Hk].
  { by injection Hr as <-. }
  revert Hr. rewrite write_buffer_at, cut_min, region_len by lia.
  cbv beta iota. rewrite (to_int_small ks) by lia.
  destruct (decide (rs < 10000 ∨ rs > 300000000)) as [Hrd|Hrd].
  { by intros [= <-]. }
  rewrite write_buffer_at, (to_int_small rs) by lia. cbv beta iota.
  replace (Z.min (o2 + ss + 4096 + b) (len bytes)
           + Z.max 0 (Z.min ks (len bytes
                                 - Z.min (o2 + ss + 4096 + b) (len bytes))))
    with (Z.min (o2 + ss + 4096 + b + ks) (len bytes)) by lia.
  rewrite cut_min by lia. by intros [= <-].
Qed.


(** C2, as the code has it: the cmdline.txt artifact holds the bytes of
    the 1024-byte cmdline region that come before its first NUL byte:
    fewer than 1024 bytes and no padding. *)
Theorem unpack_cmdline_text bytes r :
  unpack isalnum (Some bytes) = Some r →
  ∃ h s n,
    ("header size", h) ∈ u_stdout r ∧ ("sig size", s) ∈ u_stdout r ∧
    u_files r !! "cmdline.txt" = Some (Some <$> region bytes (h + s) n) ∧
    0 ≤ n < 1024 ∧
    bytes !! Z.to_nat (h + s + n) = Some 0 ∧
    Forall (λ c, c ≠ 0) (region bytes (h + s) n).
Proof.
  intros Hr. apply unpack_segments in Hr
    as (v0 & s & n & v2 & ks & rs & H0 & Hsig & Hs & HL & Hn & H2 & Hk & Hrd & ->).
  set (h := if decide (v0 = 0) then 512 else 0) in *.
  assert (0 ≤ h ≤ 512) as Hh by (unfold h; case_decide; lia).
  exists h, s, (Z.of_nat n).
  pose proof (strlen_lt _ _ Hn) as Hlt.
  pose proof (region_len bytes (h + s) 1024 ltac:(lia)) as Hlen.
  apply strlen_spec in Hn as [Hnul Hall].
  split_and!.
  - by apply segments_stdout.
  - by apply segments_stdout.
  - apply segments_files.
  - lia.
  - lia.
  - unfold region in *. rewrite lookup_take_lt, lookup_drop in Hnul by lia.
    by replace (Z.to_nat (h + s + Z.of_nat n))
      with (Z.to_nat (h + s) + n)%nat by lia.
  - rewrite <- (region_take bytes (h + s) n 1024) by lia. done.
Qed.



(** C5, as the code has it: when the stream holds the two bytes of the
    probe at the mark, 4096 bytes after the cmdline and parameter block,
    the bootstub size is 4096 or 8192, and it is 8192 exactly when that
    probe (2 bytes, min = 0) is positive.  When it holds only one byte
    there, the probe seeks back one byte further than it read, and the
    bootstub size is 4095 or 8191, 8191 exactly when the probe is
    positive.  In both cases the bootstub artifact is what the stream
    holds from the end of that block on. *)
Theorem unpack_bootstub_size bytes r h s v :
  unpack isalnum (Some bytes) = Some r →
  ("header size", h) ∈ u_stdout r → ("sig size", s) ∈ u_stdout r →
  fst <$> check_byte isalnum (mkFILE bytes (h + s + 8192)) 2 0 = Some v →
  ∃ b,
    (∀ x, ("bootstub size", x) ∈ u_stdout r ↔ x = b) ∧
    (h + s + 8194 ≤ len bytes →
       (b = 4096 ∨ b = 8192) ∧ (b = 8192 ↔ v ≠ 0)) ∧
    (len bytes < h + s + 8194 →
       len bytes = h + s + 8193 ∧
       (b = 4095 ∨ b = 8191) ∧ (b = 8191 ↔ v ≠ 0)) ∧
    u_files r !! "bootstub" = Some (cut bytes (h + s + 4096) b).
Proof.
  intros Hr Hh Hs Hv. apply unpack_segments in Hr
    as (v0 & s' & n & v2 & ks & rs & H0 & Hsig & Hs' & HL' & Hn & H2 & Hk
        & Hrd & ->).
  apply segments_stdout in Hh, Hs. subst s'. rewrite <- Hh in *.
  assert (v2 = v) as -> by congruence.
  exists ((if decide (v = 0) then 4096 else 8192)
          - (if decide (h + s + 8194 ≤ len bytes) then 0 else 1)).
  split_and!.
  - intros x. apply segments_stdout.
  - intros HL. rewrite (decide_True (P := h + s + 8194 ≤ len bytes)) by done.
    destruct (decide (v = 0)); (split; [lia|]); split; (done || lia).
  - intros HL.
    rewrite (decide_False (P := h + s + 8194 ≤ len bytes)) by lia.
    split; [lia|].
    destruct (decide (v = 0)); (split; [lia|]); split; (done || lia).
  - apply segments_files.
Qed.

(** C6: when the kernel-size field decodes outside [500000, 15000000],
    [unpack] reports the size error and returns 1 without emitting a
    kernel (or a ramdisk) artifact; when the ramdisk-size field decodes
    outside [10000, 300000000] it returns 1 without emitting a ramdisk
    artifact, and reports the ramdisk size error if the kernel size was
    in range. *)
Theorem unpack_size_range bytes r h s :
  unpack isalnum (Some bytes) = Some r →
  ("header size", h) ∈ u_stdout r → ("sig size", s) ∈ u_stdout r →
  ∃ ks rs,
    load_u32 (Some <$> region bytes (h + s + 1024) 4) = Some ks ∧
    load_u32 (Some <$> region bytes (h + s + 1028) 4) = Some rs ∧
    (ks < 500000 ∨ ks > 15000000 →
       u_status r = 1 ∧ u_stderr r = [kernel_size_likely_wrong] ∧
       u_files r !! "kernel" = None ∧
       u_files r !! "ramdisk.cpio.gz" = None) ∧
    (rs < 10000 ∨ rs > 300000000 →
       u_status r = 1 ∧ u_files r !! "ramdisk.cpio.gz" = None ∧
       (500000 ≤ ks ≤ 15000000 →
          u_stderr r = [ramdisk_size_likely_wrong])).
Proof.
  intros Hr Hh Hs. apply unpack_segments in Hr
    as (v0 & s' & n & v2 & ks & rs & H0 & Hsig & Hs' & HL' & Hn & H2 & Hk
        & Hrd & ->).
  apply segments_stdout in Hh, Hs. subst s'. rewrite <- Hh in *.
  exists ks, rs.
  match goal with |- context [segments ?a ?b ?c ?d ?e ?f ?g ?i] =>
    destruct (segments_files a b c d e f g i) as (_&_&_&_&_&Hkf&Hrf);
    destruct (segments_status a b c d e f g i) as (Hs1 & Hs2 & _)
  end.
  split_and!; [done..| |]; intros Hc.
  - rewrite (decide_True (P := ks < 500000 ∨ ks > 15000000))
      in Hkf, Hrf by done.
    destruct (Hs1 Hc). done.
  - destruct (decide (ks < 500000 ∨ ks > 15000000)) as [Hk'|Hk'].
    + destruct (Hs1 Hk'). split_and!; [done..|lia].
    + rewrite (decide_True (P := rs < 10000 ∨ rs > 300000000)) in Hrf by done.
      destruct (Hs2 Hk' Hc). done.
Qed.

End Locator.

Lemma unpack_cmdline_text_witness :
  ∃ r h s n,
    unpack Libc.isalnum_mask (Some Samples.short_image) = Some r ∧
    ("header size", h) ∈ u_stdout r ∧ ("sig size", s) ∈ u_stdout r ∧
    u_files r !! "cmdline.txt"
      = Some (Some <$> region Samples.short_image (h + s) n) ∧
    0 ≤ n < 1024.
Proof.
  destruct (unpack Libc.isalnum_mask (Some Samples.short_image))
    as [r|] eqn:E; [|by vm_compute in E].
  destruct (unpack_cmdline_text _ _ _ E) as (h & s & n & Hh & Hs & Hf & Hn & _).
  exists r, h, s, n. exact (conj eq_refl (conj Hh (conj Hs (conj Hf Hn)))).
Defined.

(** C2 as stated fails: the artifact stops before the first NUL byte of
    the region; here it has 4 bytes, the region 1024. *)
Lemma unpack_cmdline_counterexample :
  (r ← unpack Libc.isalnum_mask (Some Samples.short_image);
   u_files r !! "cmdline.txt") = Some (Some <$> [105; 110; 105; 116]) ∧
  region Samples.short_image (512 + 480) 1024
    = [105; 110; 105; 116] ++ replicate 1020 0.
Proof. split; vm_compute; reflexivity. Qed.





Lemma unpack_bootstub_size_witness :
  ∃ r b,
    unpack Libc.isalnum_mask (Some Samples.wide_image) = Some r ∧
    ("bootstub size", b) ∈ u_stdout r ∧ b = 8192.
Proof.
  destruct (unpack Libc.isalnum_mask (Some Samples.wide_image))
    as [r|] eqn:E; [|by vm_compute in E].
  assert (u_stdout <$> unpack Libc.isalnum_mask (Some Samples.wide_image)
          = Some [("header size", 512); ("sig size", 480);
                  ("bootstub size", 8192)]) as Hout
    by (vm_compute; reflexivity).
  rewrite E in Hout. injection Hout as Hout.
  destruct (unpack_bootstub_size _ _ _ 512 480 1 E)
    as (b & Hb & Hv & _).
  - rewrite Hout, !elem_of_cons. auto.
  - rewrite Hout, !elem_of_cons. auto.
  - vm_compute. reflexivity.
  - exists r, b. split; [reflexivity|]. split; [by apply Hb|].
    apply Hv; [vm_compute; discriminate|discriminate].
Defined.

(** C5 as stated fails: the bootstub is doubled when the probe at the
    mark is positive, not when it fails.  On the first image the probe
    fails and the bootstub has 4096 bytes; on the second the probe is
    positive and the bootstub has 8192 bytes. *)
Lemma unpack_bootstub_size_counterexample :
  (fst <$> check_byte Libc.isalnum_mask
             (mkFILE Samples.short_image (512 + 480 + 8192)) 2 0 = Some 0 ∧
   (r ← unpack Libc.isalnum_mask (Some Samples.short_image);
    Some (u_stdout r, (λ l, len l) <$> u_files r !! "bootstub"))
   = Some ([("header size", 512); ("sig size", 480);
            ("bootstub size", 4096)], Some 4096)) ∧
  (fst <$> check_byte Libc.isalnum_mask
             (mkFILE Samples.wide_image (512 + 480 + 8192)) 2 0 = Some 1 ∧
   (r ← unpack Libc.isalnum_mask (Some Samples.wide_image);
    Some (u_stdout r, (λ l, len l) <$> u_files r !! "bootstub"))
   = Some ([("header size", 512); ("sig size", 480);
            ("bootstub size", 8192)], Some 8192)).
Proof. repeat split; vm_compute; reflexivity. Qed.

(** When the stream ends one byte after the mark, the probe seeks back
    further than it read and the bootstub artifact comes out one byte
    short. *)
Example unpack_bootstub_truncated :
  (r ← unpack Libc.isalnum_mask (Some Samples.shorter_image);
   Some (u_stdout r, (λ l, len l) <$> u_files r !! "bootstub"))
  = Some ([("header size", 512); ("sig size", 480);
           ("bootstub size", 4095)], Some 4095).
Proof. vm_compute. reflexivity. Qed.

Lemma unpack_size_range_witness :
  ∃ r,
    unpack Libc.isalnum_mask (Some Samples.short_image) = Some r ∧
    u_status r = 1 ∧ u_stderr r = [kernel_size_likely_wrong] ∧
    u_files r !! "kernel" = None.
Proof.
  destruct (unpack Libc.isalnum_mask (Some Samples.short_image))
    as [r|] eqn:E; [|by vm_compute in E].
  assert (u_stdout <$> unpack Libc.isalnum_mask (Some Samples.short_image)
          = Some [("header size", 512); ("sig size", 480);
                  ("bootstub size", 4096)]) as Hout
    by (vm_compute; reflexivity).
  rewrite E in Hout. injection Hout as Hout.
  destruct (unpack_size_range _ _ _ 512 480 E)
    as (ks & rs & Hks & _ & Hk & _).
  - rewrite Hout, !elem_of_cons. auto.
  - rewrite Hout, !elem_of_cons. auto.
  - exists r. split; [reflexivity|].
    assert (ks = 0) as -> by (vm_compute in Hks; congruence).
    destruct Hk as (H1 & H2 & H3 & _); [lia|].
    exact (conj H1 (conj H2 H3)).
Defined.

(** ** The header checksum *)

Lemma memcpy_cell dst off x d :
  memcpy dst off [x] 1 = Some d → d = <[Z.to_nat off := x]> dst.
Proof.
  intros Hd. assert (0 ≤ off ∧ off + 1 ≤ len dst) as H
    by (unfold memcpy in Hd; case_decide; [lia|done]).
  apply list_eq. intros i.
  rewrite (memcpy_lookup _ _ _ _ _ _ Hd).
  destruct (decide (i = Z.to_nat off)) as [->|Hne].
  - rewrite decide_True, list_lookup_insert_eq, Nat.sub_diag by lia. done.
  - rewrite decide_False, list_lookup_insert_ne by lia. done.
Qed.

(** The loop [xor ^= hdr_calc[i]] on a [uint8_t] computes the exclusive
    or of the bytes, reduced to one byte. *)
Lemma to_u8_lxor a b : to_u8 (Z.lxor (to_u8 a) b) = to_u8 (Z.lxor a b).
Proof.
  unfold to_u8. change 256 with (2 ^ 8).
  rewrite <- !Z.land_ones by lia. apply Z.bits_inj'. intros i Hi.
  rewrite !Z.land_spec, !Z.lxor_spec, !Z.land_spec.
  destruct (Z.testbit a i), (Z.testbit b i), (Z.testbit (Z.ones 8) i); done.
Qed.

Lemma foldl_xor_step (l : list cell) : ∀ a,
  foldl xor_step (Some (to_u8 a)) l
  = bs ← determinate l; Some (to_u8 (Z.lxor a (xor_bytes bs))).
Proof.
  induction l as [|[c|] l IH]; intros a.
  - cbn. by rewrite Z.lxor_0_r.
  - cbn [foldl determinate]. unfold xor_step at 2. cbn [mbind option_bind].
    rewrite IH. destruct (determinate l) as [bs|]; [|done].
    cbn [mbind option_bind]. unfold xor_bytes. cbn [foldr].
    by rewrite Z.lxor_assoc, to_u8_lxor.
  - cbn [foldl determinate]. clear IH. unfold xor_step at 2.
    cbn [mbind option_bind]. by induction l.
Qed.

Lemma hdr_xor_checksum b : 56 ≤ len b → hdr_xor b = Some (checksum b).
Proof.
  intros Hb. unfold hdr_xor, checksum.
  assert (memcpy (malloc 56) 0 b 56 = Some (take 56 b)) as ->.
  { unfold memcpy. rewrite decide_True by (rewrite malloc_length; lia).
    simpl. by rewrite app_nil_r. }
  simpl.
  destruct (memcpy_is_Some (take 56 b) 7 [Some 0] 1) as [c Hc];
    [lia|simpl; lia|lia|rewrite length_take; lia|].
  rewrite Hc. simpl. apply memcpy_cell in Hc as ->.
  rewrite take_ge by (rewrite length_insert, length_take; lia).
  change (Some 0) with (Some (to_u8 0)) at 1. rewrite foldl_xor_step.
  by destruct (determinate _).
Qed.

Lemma checksum_insert b x : checksum (<[7%nat := x]> b) = checksum b.
Proof.
  unfold checksum. by rewrite take_insert_lt, list_insert_insert_eq by lia.
Qed.




(** ** The Image Assembler *)

Lemma read_file_small dir name bytes :
  dir !! name = Some bytes → len bytes < 2 ^ 31 →
  read_file dir name = Some (bytes, len bytes).
Proof.
  intros Hd Hlen. unfold read_file. rewrite Hd. simpl.
  rewrite to_int_small, to_u32_small by lia.
  by rewrite take_ge by lia.
Qed.

Lemma read_file_None dir name :
  dir !! name = None → read_file dir name = None.
Proof. intros Hd. unfold read_file. by rewrite Hd. Qed.

Section Assembler.

Variable dir : gmap string (list cell).
Variables cmdline parameter bootstub kernel ramdisk : list cell.

Hypothesis cmdline_in : dir !! "cmdline.txt" = Some cmdline.
Hypothesis parameter_in : dir !! "parameter" = Some parameter.
Hypothesis bootstub_in : dir !! "bootstub" = Some bootstub.
Hypothesis kernel_in : dir !! "kernel" = Some kernel.
Hypothesis ramdisk_in : dir !! "ramdisk.cpio.gz" = Some ramdisk.

Let h := artifact_size dir "hdr".
Let s := artifact_size dir "sig".
Let img_size := h + s + 4096 + len bootstub + len kernel + len ramdisk.

Lemma pack_assemble :
  img_size < 2 ^ 31 → len cmdline < 2 ^ 31 → len parameter < 2 ^ 31 →
  pack dir true =
  bootimg ← assemble ((λ d, (d, len d)) <$> dir !! "hdr")
               ((λ d, (d, len d)) <$> dir !! "sig")
               (cmdline, len cmdline) (parameter, len parameter)
               (bootstub, len bootstub) (kernel, len kernel)
               (ramdisk, len ramdisk);
  Some (mkPacked 0 [] (Some bootimg)).
Proof.
  intros Hint Hcmd Hpar. unfold pack.
  unfold img_size, h, s, artifact_size in Hint.
  assert (read_file dir "hdr" = (λ d, (d, len d)) <$> dir !! "hdr") as ->.
  { destruct (dir !! "hdr") as [d|] eqn:E; simpl in *.
    - apply read_file_small; [done|]. destruct (dir !! "sig"); simpl in *; lia.
    - by apply read_file_None. }
  assert (read_file dir "sig" = (λ d, (d, len d)) <$> dir !! "sig") as ->.
  { destruct (dir !! "sig") as [d|] eqn:E; simpl in *.
    - apply read_file_small; [done|]. destruct (dir !! "hdr"); simpl in *; lia.
    - by apply read_file_None. }
  assert (0 ≤ from_option (λ bytes : list cell, len bytes) 0 (dir !! "hdr"))
    by (destruct (dir !! "hdr"); simpl; lia).
  assert (0 ≤ from_option (λ bytes : list cell, len bytes) 0 (dir !! "sig"))
    by (destruct (dir !! "sig"); simpl; lia).
  unfold required_file, read_required.
  rewrite (read_file_small _ _ _ cmdline_in), (read_file_small _ _ _ parameter_in),
    (read_file_small _ _ _ bootstub_in), (read_file_small _ _ _ kernel_in),
    (read_file_small _ _ _ ramdisk_in) by lia.
  done.
Qed.

Lemma sizes_nonneg : 0 ≤ h ∧ 0 ≤ s.
Proof.
  unfold h, s, artifact_size.
  destruct (dir !! "hdr"), (dir !! "sig"); simpl; lia.
Qed.

(** The padding that [pack] computes brings the size to the next multiple
    of 512. *)
Lemma padding_spec (n : Z) :
  0 ≤ n →
  let padding := if decide (512 - Z.rem n 512 < 512)
                 then 512 - Z.rem n 512 else 0 in
  0 ≤ padding < 512 ∧ (n + padding) mod 512 = 0.
Proof.
  intros Hn. rewrite Z.rem_mod_nonneg by lia.
  pose proof (Z.mod_pos_bound n 512 ltac:(lia)).
  pose proof (Z.div_mod n 512 ltac:(lia)).
  simpl. case_decide.
  - split; [lia|].
    replace (n + (512 - n mod 512)) with ((n / 512 + 1) * 512) by lia.
    apply Z.mod_mul. lia.
  - split; [lia|]. replace (n mod 512) with 0 by lia.
    rewrite Z.add_0_r. lia.
Qed.

Let padding :=
  if decide (512 - Z.rem img_size 512 < 512)
  then 512 - Z.rem img_size 512 else 0.
Let total := img_size + padding.

Lemma hdr_xor_is_Some b : 56 ≤ len b → is_Some (hdr_xor b).
Proof.
  intros Hb. unfold hdr_xor.
  destruct (memcpy_is_Some (malloc 56) 0 b 56) as [c Hc];
    [lia|lia|lia|by rewrite malloc_length|].
  rewrite Hc. simpl.
  destruct (memcpy_is_Some c 7 [Some 0] 1) as [c' Hc'];
    [lia|simpl; lia|lia| |].
  - rewrite (memcpy_len _ _ _ _ _ 56 Hc); [lia|by apply malloc_length].
  - rewrite Hc'. done.
Qed.

(** The run of [assemble], statement by statement: the buffer after each
    copy.  It is defined as soon as the sizes fit an [int] and the
    cmdline and parameter artifacts end inside the buffer. *)
Lemma assemble_chain hdr sig :
  from_option (λ d : list cell, len d) 0 hdr = h →
  from_option (λ d : list cell, len d) 0 sig = s →
  img_size + 512 ≤ 2 ^ 31 →
  h + s + len cmdline ≤ img_size →
  h + s + 1032 + len parameter ≤ img_size →
  ∃ b1 b2 b3 b4 b5 b6 b7 b8 b9 b10 image,
    match hdr with
    | Some d => memcpy (malloc total) 0 d h = Some b1
    | None => b1 = malloc total
    end ∧
    match sig, hdr with
    | Some d, _ =>
        ∃ b, memcpy b1 h d s = Some b ∧
             memcpy b (h + s + 1024 + 16) sig_magic 8 = Some b2
    | None, Some _ =>
        ∃ t, memcpy (malloc 4) 0 (drop 52 b1) 4 = Some t ∧
             memcpy b1 52
               (store_cell_u32 ((λ v, to_u32 (v + 1)) <$> load_u32 t)) 4
             = Some b2
    | None, None => b2 = b1
    end ∧
    memcpy b2 (h + s) cmdline (len cmdline) = Some b3 ∧
    memcpy b3 (h + s + 1024) (store_u32 (len kernel)) 4 = Some b4 ∧
    memcpy b4 (h + s + 1024 + 4) (store_u32 (len ramdisk)) 4 = Some b5 ∧
    memcpy b5 (h + s + 1024 + 8) parameter (len parameter) = Some b6 ∧
    memcpy b6 (h + s + 4096) bootstub (len bootstub) = Some b7 ∧
    memcpy b7 (h + s + 4096 + len bootstub) kernel (len kernel) = Some b8 ∧
    memcpy b8 (h + s + 4096 + len bootstub + len kernel) ramdisk
      (len ramdisk) = Some b9 ∧
    memcpy b9 img_size (replicate (Z.to_nat padding) (Some 255)) padding
      = Some b10 ∧
    match hdr with
    | Some _ =>
        ∃ b x,
          memcpy b10 48 (store_u32 (to_u32 (Z.quot total 512 - 1))) 4
            = Some b ∧
          hdr_xor b = Some x ∧ memcpy b 7 [x] 1 = Some image
    | None => image = b10
    end ∧
    len image = total ∧
    assemble ((λ d, (d, len d)) <$> hdr) ((λ d, (d, len d)) <$> sig)
      (cmdline, len cmdline) (parameter, len parameter)
      (bootstub, len bootstub) (kernel, len kernel)
      (ramdisk, len ramdisk) = Some image.
Proof.
  intros Hh Hs Hint Hcmd Hpar.
  destruct sizes_nonneg as [Hh0 Hs0].
  unfold assemble.
  assert (from_option snd 0 ((λ d : list cell, (d, len d)) <$> hdr) = h) as ->
    by (by destruct hdr).
  assert (from_option snd 0 ((λ d : list cell, (d, len d)) <$> sig) = s) as ->
    by (by destruct sig).
  fold img_size.
  assert (0 ≤ img_size) as Hi0 by (unfold img_size; lia).
  rewrite (to_u32_small img_size), (to_int_small img_size) by lia.
  destruct (padding_spec img_size Hi0) as [Hpad Htot]. cbv zeta in Hpad, Htot.
  fold padding in Hpad, Htot |- *. fold total in Htot |- *.
  assert (total = img_size + padding) as Et by done. clearbody total padding.
  rewrite decide_True by lia. simpl.
  repeat match goal with
  | |- context [to_u32 ?x] =>
      rewrite (to_u32_small x) by (unfold img_size in *; lia)
  end.
  assert (len (malloc total) = total) as Hl0 by (apply malloc_length; lia).
  assert (len (malloc 4) = 4) as Hl4 by done.
  unfold memset. change (to_u8 255) with 255.
  destruct hdr as [hdr_data|], sig as [sig_data|]; simpl in Hh, Hs |- *;
    repeat memcpy_step.
  - destruct (hdr_xor_is_Some b10) as [x Hx]; [lia|]. rewrite Hx. simpl.
    memcpy_step.
    do 11 eexists. split_and!; try eassumption; eauto.
    by rewrite take_ge by lia.
  - destruct (hdr_xor_is_Some b10) as [x Hx]; [lia|]. rewrite Hx. simpl.
    memcpy_step.
    do 11 eexists. split_and!; try eassumption; eauto.
    by rewrite take_ge by lia.
  - do 11 eexists. split_and!; try eassumption; eauto.
    by rewrite take_ge by lia.
  - do 11 eexists. split_and!; try eassumption; eauto.
    by rewrite take_ge by lia.
Qed.

(** C7: with a kernel of K bytes and a ramdisk of R bytes in their valid
    ranges, [pack] puts the kernel at offset header + signature + 4096 +
    bootstub of the buffer, the ramdisk right after it, and produces a
    buffer whose length is a multiple of 512, the bytes after the ramdisk
    being 0xFF.  (The sizes fit an [int] and the two text artifacts end
    inside the buffer: the conditions under which the copies of [pack]
    stay inside its buffer.) *)
Theorem pack_places_kernel_and_ramdisk :
  500000 ≤ len kernel ≤ 15000000 →
  10000 ≤ len ramdisk ≤ 300000000 →
  img_size + 512 ≤ 2 ^ 31 →
  len cmdline ≤ 4096 + len bootstub + len kernel + len ramdisk →
  1032 + len parameter ≤ 4096 + len bootstub + len kernel + len ramdisk →
  ∃ image,
    pack dir true = Some (mkPacked 0 [] (Some image)) ∧
    region image (h + s + 4096 + len bootstub) (len kernel) = kernel ∧
    region image (h + s + 4096 + len bootstub + len kernel) (len ramdisk)
      = ramdisk ∧
    len image mod 512 = 0 ∧
    img_size ≤ len image < img_size + 512 ∧
    region image img_size (len image - img_size)
      = replicate (Z.to_nat (len image - img_size)) (Some 255).
Proof.
  intros HK HR Hint Hcmd Hpar. destruct sizes_nonneg as [Hh0 Hs0].
  assert (0 ≤ img_size) as Hi0 by (unfold img_size; lia).
  destruct (padding_spec img_size Hi0) as [Hpad Htot]. cbv zeta in Hpad, Htot.
  fold padding in Hpad, Htot. fold total in Htot.
  destruct (assemble_chain (dir !! "hdr") (dir !! "sig"))
    as (b1&b2&b3&b4&b5&b6&b7&b8&b9&b10&image&H); try done; try lia.
  destruct H as (H1&H2&H3&H4&H5&H6&H7&H8&H9&H10&H11&Hlen&Hrun).
  exists image. split.
  { rewrite pack_assemble by (unfold img_size in *; lia).
    by rewrite Hrun. }
  assert (len image - img_size = padding) as Hp by (unfold total in Hlen; lia).
  rewrite !Hp, Hlen.
  assert (region image (h + s + 4096 + len bootstub) (len kernel)
            = region b10 (h + s + 4096 + len bootstub) (len kernel) ∧
          region image (h + s + 4096 + len bootstub + len kernel)
            (len ramdisk)
            = region b10 (h + s + 4096 + len bootstub + len kernel)
                (len ramdisk) ∧
          region image img_size padding = region b10 img_size padding)
    as (-> & -> & ->).
  { destruct (dir !! "hdr"); [|by subst].
    destruct H11 as (b & x & Hs1 & Hx & Hs2).
    unfold img_size in *. split_and!; chase; done. }
  unfold img_size in *. split_and!; [| |done|lia|lia|].
  - chase. rewrite (memcpy_region _ _ _ _ _ H8). apply take_len.
  - chase. rewrite (memcpy_region _ _ _ _ _ H9). apply take_len.
  - rewrite (memcpy_region _ _ _ _ _ H10). apply take_ge.
    rewrite length_replicate. lia.
Qed.



End Assembler.

Lemma pack_places_kernel_and_ramdisk_witness :
  ∃ image,
    pack Samples.full_dir true = Some (mkPacked 0 [] (Some image)) ∧
    len image mod 512 = 0.
Proof.
  destruct (pack_places_kernel_and_ramdisk Samples.full_dir
              Samples.cmdline Samples.parameter Samples.bootstub
              Samples.kernel Samples.ramdisk)
    as (image & Hrun & Hk & _ & Hmod & _);
    [reflexivity..| | | | | |];
    [vm_compute; repeat split; discriminate..| ].
  exists image. split; [exact Hrun|exact Hmod].
Defined.




(** * Further properties of the code *)

(** ** The content probe, away from and near the end of the file *)

Section ProbeMore.

Variable isalnum : Z → Z.

(** Inside the file the probe is defined, returns 0 or 1 and puts the
    stream back where it was. *)
Lemma check_byte_fits bytes o size min :
  0 ≤ o → 1 < size → o + size ≤ len bytes →
  ∃ v, check_byte isalnum (mkFILE bytes o) size min
         = Some (v, mkFILE bytes o) ∧
       (v = 0 ∨ v = 1) ∧
       (v = 1 ↔ ∃ c, probed (region bytes o 2) size = Some c
                     ∧ min < isalnum c < size).
Proof.
  intros Ho Hs HL.
  pose proof (check_byte_verdict isalnum (mkFILE bytes o) size min Ho) as Hv.
  change (ahead (mkFILE bytes o) 2) with (region bytes o 2) in Hv.
  assert (∃ c, probed (region bytes o 2) size = Some c) as [c Hc].
  { pose proof (region_len bytes o 2 Ho) as Hlen.
    unfold probed. rewrite decide_True by lia.
    destruct (region bytes o 2) as [|b0 [|b1 w]]; simpl in Hlen; try lia.
    case_decide; eauto. }
  rewrite Hc in Hv. simpl in Hv.
  destruct (check_byte isalnum (mkFILE bytes o) size min)
    as [[v f']|] eqn:E; [|done].
  injection Hv as Hv.
  apply check_byte_at in E as (o' & -> & _ & Ho'); [|done..].
  assert (o' = o) as -> by lia.
  exists v. split; [done|]. rewrite Hc. split.
  - case_decide; lia.
  - split.
    + intros ->. exists c. split; [done|]. case_decide; lia.
    + intros (c' & [= <-] & Hr). rewrite decide_True in Hv by lia. done.
Qed.

(** X1: when the window lies inside the file, [check_byte] is defined,
    returns 0 or 1, and leaves the stream exactly where it found it; it
    returns 1 exactly when min < isalnum(c) < size for the byte c that it
    classifies (the second byte of the window after a leading NUL, the
    first byte otherwise). *)
Theorem check_byte_restores_position f size min :
  0 ≤ offset f → 1 < size → offset f + size ≤ len (contents f) →
  ∃ v, check_byte isalnum f size min = Some (v, f) ∧
       (v = 0 ∨ v = 1) ∧
       (v = 1 ↔ ∃ c, probed (ahead f 2) size = Some c
                     ∧ min < isalnum c < size).
Proof.
  destruct f as [bytes o]. simpl. intros Ho Hs HL.
  destruct (check_byte_fits bytes o size min) as (v & Hv); [done..|].
  by exists v.
Qed.

(** X2: when fewer than [size] bytes remain, [check_byte] does not put
    the stream back: it reads up to the end of the file and seeks back by
    [size], so the stream ends [size] bytes before the end of the file,
    before the position of the probe (or at the end of the file when
    the seek fails because the file is shorter than [size]). *)
Theorem check_byte_near_end f size min v f' :
  0 ≤ offset f → 1 < size →
  len (contents f) < offset f + size →
  check_byte isalnum f size min = Some (v, f') →
  offset f < len (contents f) ∧
  contents f' = contents f ∧
  offset f' = (if decide (size ≤ len (contents f))
               then len (contents f) - size else len (contents f)) ∧
  offset f' ≠ offset f.
Proof.
  intros Ho Hs HL Hc.
  apply check_byte_stream in Hc as (Hc & Hlt & Hoff); [|done..].
  rewrite Z.min_r in Hoff by lia.
  split_and!; [done..|]. rewrite Hoff. case_decide; lia.
Qed.

End ProbeMore.

Lemma check_byte_restores_position_witness :
  ∃ v, check_byte Libc.isalnum_mask (mkFILE [0; 105; 110; 105; 116] 0) 4 1
         = Some (v, mkFILE [0; 105; 110; 105; 116] 0) ∧ (v = 0 ∨ v = 1).
Proof.
  destruct (check_byte_restores_position Libc.isalnum_mask
              (mkFILE [0; 105; 110; 105; 116] 0) 4 1)
    as (v & Hv & H01 & _); [simpl; lia..|].
  exists v. exact (conj Hv H01).
Defined.

Lemma check_byte_near_end_witness :
  check_byte Libc.isalnum_mask (mkFILE [105; 110; 105; 116; 61] 3) 4 1
    = Some (1, mkFILE [105; 110; 105; 116; 61] 1) ∧
  offset (mkFILE [105; 110; 105; 116; 61] 1)
    ≠ offset (mkFILE [105; 110; 105; 116; 61] 3).
Proof.
  destruct (check_byte_near_end Libc.isalnum_mask
              (mkFILE [105; 110; 105; 116; 61] 3) 4 1 1
              (mkFILE [105; 110; 105; 116; 61] 1))
    as (_ & _ & _ & Hne); [simpl; lia..|reflexivity|].
  split; [reflexivity|exact Hne].
Defined.

(** ** The Segment Locator: detection *)

Section LocatorMore.

Variable isalnum : Z → Z.

Abbreviation probe4 bytes o :=
  (fst <$> check_byte isalnum (mkFILE bytes o) 4 1).

(** The signature loop away from the end of the file: the deltas add up
    until a probe is positive. *)
Lemma sig_loop_run bytes o :
  0 ≤ o → o + 1028 ≤ len bytes →
  sig_loop isalnum sig_deltas (mkFILE bytes o) =
  Some (mkFILE bytes
          (o + if decide (probe4 bytes o = Some 0) then
                 if decide (probe4 bytes (o + 480) = Some 0) then
                   if decide (probe4 bytes (o + 728) = Some 0) then 1024
                   else 728
                 else 480
               else 0)).
Proof.
  intros Ho HL. unfold sig_deltas. cbn [sig_loop].
  rewrite fseek_cur_at, Z.add_0_r by lia.
  destruct (check_byte_fits isalnum bytes o 4 1) as (v1 & E1 & H1 & _);
    [lia..|].
  rewrite E1. cbn [mbind option_bind fmap option_fmap option_map fst].
  destruct (decide (v1 ≠ 0)) as [Hv1|Hv1].
  { rewrite decide_False by (intros [= ->]; done). by rewrite Z.add_0_r. }
  assert (v1 = 0) as -> by lia. rewrite decide_True by done.
  rewrite fseek_cur_at by lia.
  destruct (check_byte_fits isalnum bytes (o + 480) 4 1)
    as (v2 & E2 & H2 & _); [lia..|].
  rewrite E2. cbn [mbind option_bind fmap option_fmap option_map fst].
  destruct (decide (v2 ≠ 0)) as [Hv2|Hv2].
  { by rewrite decide_False by (intros [= ->]; done). }
  assert (v2 = 0) as -> by lia. rewrite decide_True by done.
  rewrite fseek_cur_at by lia.
  replace (o + 480 + 248) with (o + 728) by lia.
  destruct (check_byte_fits isalnum bytes (o + 728) 4 1)
    as (v3 & E3 & H3 & _); [lia..|].
  rewrite E3. cbn [mbind option_bind fmap option_fmap option_map fst].
  destruct (decide (v3 ≠ 0)) as [Hv3|Hv3].
  { by rewrite decide_False by (intros [= ->]; done). }
  assert (v3 = 0) as -> by lia. rewrite decide_True by done.
  rewrite fseek_cur_at by lia.
  replace (o + 728 + 296) with (o + 1024) by lia.
  destruct (check_byte_fits isalnum bytes (o + 1024) 4 1)
    as (v4 & E4 & H4 & _); [lia..|].
  rewrite E4. cbn [mbind option_bind]. by case_decide.
Qed.

(** What [unpack_segments] gives, with the verdict of the first probe and
    the run of the signature loop made explicit. *)
Lemma unpack_detection bytes r :
  unpack isalnum (Some bytes) = Some r →
  ∃ v0 s n v2 ks rs,
    let h := if decide (v0 = 0) then 512 else 0 in
    let b := (if decide (v2 = 0) then 4096 else 8192)
             - (if decide (h + s + 8194 ≤ len bytes) then 0 else 1) in
    probe4 bytes 0 = Some v0 ∧ (v0 = 0 ∨ v0 = 1) ∧
    s = (if decide (probe4 bytes h = Some 0) then
           if decide (probe4 bytes (h + 480) = Some 0) then
             if decide (probe4 bytes (h + 728) = Some 0) then 1024
             else 728
           else 480
         else 0) ∧
    h + s + 8192 < len bytes ∧
    strlen (Some <$> region bytes (h + s) 1024) = Some n ∧
    fst <$> check_byte isalnum (mkFILE bytes (h + s + 8192)) 2 0 = Some v2 ∧
    load_u32 (Some <$> region bytes (h + s + 1024) 4) = Some ks ∧
    load_u32 (Some <$> region bytes (h + s + 1028) 4) = Some rs ∧
    r = segments bytes (bool_decide (v0 = 0)) h s (Z.of_nat n) b ks rs.
Proof.
  intros Hr. apply unpack_segments in Hr
    as (v0 & s & n & v2 & ks & rs & H0 & Hsig & Hs & HL & Hn & H2 & Hk & Hrd
        & ->).
  exists v0, s, n, v2, ks, rs. cbv zeta.
  set (h := if decide (v0 = 0) then 512 else 0) in *.
  assert (0 ≤ h ≤ 512) as Hh by (unfold h; case_decide; lia).
  destruct (check_byte_fits isalnum bytes 0 4 1) as (v & E & H01 & _);
    [lia..|].
  unfold fopen_rb in H0. rewrite E in H0. injection H0 as ->.
  rewrite sig_loop_run in Hsig by lia. injection Hsig as Hsig.
  split_and!; try done.
  - by rewrite E.
  - lia.
Qed.

Lemma strlen_is_Some (l : list Z) :
  is_Some (strlen (Some <$> l)) ↔ 0 ∈ l.
Proof.
  induction l as [|x l IH]; csimpl.
  - split; [by intros [? ?]|by intros ?%elem_of_nil].
  - case_decide as Hx.
    + subst. split; [intros _; by left|by eauto].
    + rewrite elem_of_cons, <- IH, fmap_is_Some.
      split; [by right|]. by intros [?|?].
Qed.

(** The run of [unpack] on a stream that reaches two bytes past the
    mark of the bootstub probe is defined as soon as the command line
    has a NUL byte. *)
Lemma unpack_complete bytes v0 s n :
  let h := if decide (v0 = 0) then 512 else 0 in
  probe4 bytes 0 = Some v0 →
  s = (if decide (probe4 bytes h = Some 0) then
         if decide (probe4 bytes (h + 480) = Some 0) then
           if decide (probe4 bytes (h + 728) = Some 0) then 1024
           else 728
         else 480
       else 0) →
  h + s + 8194 ≤ len bytes →
  strlen (Some <$> region bytes (h + s) 1024) = Some n →
  is_Some (unpack isalnum (Some bytes)).
Proof.
  intros h H0 Hs HL Hn.
  assert (0 ≤ h ≤ 512) as Hh by (unfold h; destruct (decide (v0 = 0)); lia).
  assert (0 ≤ s ≤ 1024) as Hs'
    by (rewrite Hs; clear Hs HL Hn H0;
        repeat (match goal with |- context [decide ?P] =>
                  destruct (decide P) end); lia).
  unfold unpack, fopen_rb, ftell.
  destruct (check_byte_fits isalnum bytes 0 4 1) as (v & E & _); [lia..|].
  rewrite E in H0 |- *. injection H0 as ->.
  cbn [mbind option_bind].
  assert ((if decide (v0 = 0)
           then write_buffer (mkFILE bytes 0) 512 "hdr" ∅
           else (mkFILE bytes 0, ∅)) =
          (mkFILE bytes h,
           if decide (v0 = 0) then <["hdr" := cut bytes 0 512]> ∅ else ∅))
    as ->.
  { unfold h. destruct (decide (v0 = 0)); [|done].
    rewrite write_buffer_at, region_len by lia. do 2 f_equal. lia. }
  cbv beta iota. cbn [offset contents].
  rewrite sig_loop_run, <- Hs by lia. cbn [mbind option_bind offset contents].
  rewrite (to_int_small h) by lia.
  replace (h + s - h) with s by lia. rewrite (to_int_small s) by lia.
  match goal with |- context [write_buffer _ s "sig" ?d] =>
    generalize d; intros dirA
  end.
  assert ((if decide (s > 0)
           then write_buffer (fseek_cur (mkFILE bytes (h + s)) (- s)) s "sig"
                  dirA
           else (mkFILE bytes (h + s), dirA)) =
          (mkFILE bytes (h + s),
           if decide (s > 0) then <["sig" := cut bytes h s]> dirA else dirA))
    as ->.
  { destruct (decide (s > 0)); [|done].
    rewrite fseek_cur_at, write_buffer_at by lia.
    replace (h + s + - s) with h by lia. rewrite region_len by lia.
    do 2 f_equal. lia. }
  cbv beta iota.
  match goal with |- context [write_string _ _ ?d] =>
    generalize d; intros dirB
  end.
  rewrite fread_at. cbv beta iota. unfold write_string, sizeof_cmdline.
  rewrite drop_malloc, strlen_fresh, Hn. cbn [mbind option_bind].
  rewrite !fread_at, write_buffer_at. cbv beta iota.
  rewrite (region_len bytes (h + s) 1024) by lia.
  replace (h + s + Z.max 0 (Z.min 1024 (len bytes - (h + s))))
    with (h + s + 1024) by lia.
  rewrite (region_len bytes (h + s + 1024) 4) by lia.
  replace (h + s + 1024 + Z.max 0 (Z.min 4 (len bytes - (h + s + 1024))))
    with (h + s + 1028) by lia.
  rewrite (region_len bytes (h + s + 1028) 4) by lia.
  replace (h + s + 1028 + Z.max 0 (Z.min 4 (len bytes - (h + s + 1028))))
    with (h + s + 1032) by lia.
  rewrite (region_len bytes (h + s + 1032) 8) by lia.
  replace (h + s + 1032 + Z.max 0 (Z.min 8 (len bytes - (h + s + 1032))))
    with (h + s + 1040) by lia.
  rewrite !fseek_cur_at by lia.
  destruct (check_byte_fits isalnum bytes
              (h + s + 1040 + (3072 - 16) + 4096) 2 0) as (v2 & E2 & _);
    [lia..|].
  rewrite E2. cbn [mbind option_bind].
  match goal with |- context [write_buffer ?f ?n "bootstub" ?d] =>
    destruct (write_buffer f n "bootstub" d) as [f7 dir7]
  end.
  assert (∀ o, h + s + 1024 ≤ o ≤ h + s + 1028 →
               length (region bytes o 4) = 4%nat) as Hfield.
  { intros o Ho. pose proof (region_len bytes o 4). lia. }
  rewrite !load_u32_app by (apply Hfield; lia).
  destruct (load_u32_is_Some (region bytes (h + s + 1024) 4))
    as [ks ->]; [apply Hfield; lia|].
  destruct (load_u32_is_Some (region bytes (h + s + 1028) 4))
    as [rs ->]; [apply Hfield; lia|].
  cbn [mbind option_bind].
  destruct (decide (ks < 500000 ∨ ks > 15000000)); [by eexists|].
  destruct (write_buffer f7 ks "kernel" dir7) as [f8 dir8].
  cbn [mbind option_bind].
  destruct (decide (rs < 10000 ∨ rs > 300000000)); [by eexists|].
  destruct (write_buffer f8 rs "ramdisk.cpio.gz" dir8) as [f9 dir9].
  by eexists.
Qed.

(** X3: an image without header is never taken as signed: when no header
    is detected, the first probe of the signature loop is the probe that
    has just been positive at offset 0, so the signature size is 0, no
    hdr and no sig artifact is emitted, and the command line is read from
    offset 0. *)
Theorem unpack_headerless_is_unsigned bytes r :
  unpack isalnum (Some bytes) = Some r →
  ("header size", 0) ∈ u_stdout r →
  ("sig size", 0) ∈ u_stdout r ∧
  u_files r !! "hdr" = None ∧ u_files r !! "sig" = None ∧
  ∃ n, u_files r !! "cmdline.txt" = Some (Some <$> region bytes 0 n).
Proof.
  intros Hr Hh. apply unpack_detection in Hr
    as (v0 & s & n & v2 & ks & rs & H0 & H01 & Hs & HL & Hn & H2 & Hk & Hrd
        & ->).
  apply segments_stdout in Hh.
  destruct (decide (v0 = 0)) as [->|Hv]; [done|].
  assert (v0 = 1) as -> by lia. simpl in *.
  rewrite H0 in Hs. rewrite decide_False in Hs by done. subst s.
  match goal with |- context [segments ?a ?b ?c ?d ?e ?f ?g ?i] =>
    destruct (segments_files a b c d e f g i) as (Hf1 & Hf2 & Hf3 & _);
    pose proof (segments_stdout a b c d e f g i 0) as (_ & Ho & _)
  end.
  split_and!; [by apply Ho|done|done|]. exists (Z.of_nat n). exact Hf3.
Qed.




(** X6: the parameter artifact is the 8 bytes that follow the two size
    fields (offsets + 1032 to + 1039 of the block that starts with the
    command line), not the size fields themselves. *)
Theorem unpack_parameter_artifact bytes r h s :
  unpack isalnum (Some bytes) = Some r →
  ("header size", h) ∈ u_stdout r → ("sig size", s) ∈ u_stdout r →
  u_files r !! "parameter" = Some (Some <$> region bytes (h + s + 1032) 8) ∧
  len (region bytes (h + s + 1032) 8) = 8.
Proof.
  intros Hr Hh Hs. apply unpack_detection in Hr
    as (v0 & s' & n & v2 & ks & rs & H0 & H01 & Hs' & HL & Hn & H2 & Hk & Hrd
        & ->).
  apply segments_stdout in Hh, Hs. subst h s.
  assert (0 ≤ (if decide (v0 = 0) then 512 else 0) ≤ 512)
    by (destruct (decide (v0 = 0)); lia).
  assert (0 ≤ s' ≤ 1024)
    by (rewrite Hs'; clear; repeat (match goal with
          |- context [decide ?P] => destruct (decide P) end); lia).
  match goal with |- context [segments ?a ?b ?c ?d ?e ?f ?g ?i] =>
    destruct (segments_files a b c d e f g i) as (_ & _ & _ & Hf & _)
  end.
  rewrite cut_full in Hf by lia. split; [done|].
  rewrite region_len by lia. lia.
Qed.

(** X7: [unpack] returns 0 exactly when both size fields are in range,
    however many bytes the stream holds after the bootstub probe: the
    end of the stream is never detected.  The kernel artifact then has
    exactly as many bytes as the kernel-size field says and the ramdisk
    artifact as many as the ramdisk-size field says; they are read one
    after the other right after the bootstub, and bytes that the stream
    does not hold are left indeterminate in the artifact. *)
Theorem unpack_succeeds_iff_sizes_in_range bytes r h s b :
  unpack isalnum (Some bytes) = Some r →
  ("header size", h) ∈ u_stdout r → ("sig size", s) ∈ u_stdout r →
  ("bootstub size", b) ∈ u_stdout r →
  ∃ ks rs,
    load_u32 (Some <$> region bytes (h + s + 1024) 4) = Some ks ∧
    load_u32 (Some <$> region bytes (h + s + 1028) 4) = Some rs ∧
    (u_status r = 0 ↔
       500000 ≤ ks ≤ 15000000 ∧ 10000 ≤ rs ≤ 300000000) ∧
    (u_status r = 0 →
       u_files r !! "kernel" = Some (cut bytes (h + s + 4096 + b) ks) ∧
       u_files r !! "ramdisk.cpio.gz"
         = Some (cut bytes (h + s + 4096 + b + ks) rs) ∧
       len (cut bytes (h + s + 4096 + b) ks) = ks ∧
       len (cut bytes (h + s + 4096 + b + ks) rs) = rs).
Proof.
  intros Hr Hh Hs Hb. apply unpack_detection in Hr
    as (v0 & s' & n & v2 & ks & rs & H0 & H01 & Hs' & HL & Hn & H2 & Hk & Hrd
        & ->).
  apply segments_stdout in Hh, Hs, Hb. subst h s b.
  exists ks, rs.
  match goal with |- context [segments ?a ?b ?c ?d ?e ?f ?g ?i] =>
    destruct (segments_files a b c d e f g i) as (_&_&_&_&_&Hkf&Hrf);
    destruct (segments_status a b c d e f g i) as (Hs1 & Hs2 & Hs3)
  end.
  destruct (decide (ks < 500000 ∨ ks > 15000000)) as [Hk1|Hk1].
  { destruct (Hs1 Hk1) as [-> _]. split_and!; [done..| |done]. lia. }
  destruct (decide (rs < 10000 ∨ rs > 300000000)) as [Hr1|Hr1].
  { destruct (Hs2 Hk1 Hr1) as [-> _]. split_and!; [done..| |done]. lia. }
  destruct (Hs3 Hk1 Hr1) as [-> _].
  split_and!; [done..| |]; [split; [lia|done]|].
  intros _. rewrite !cut_length by lia. done.
Qed.

(** X8: when the stream holds everything that the size fields announce,
    the bootstub, kernel and ramdisk artifacts are exactly the three
    consecutive regions of the stream that start 4096 bytes after the
    command line; whatever follows the ramdisk is not read. *)
Theorem unpack_payload_regions bytes r h s b ks rs :
  unpack isalnum (Some bytes) = Some r → u_status r = 0 →
  ("header size", h) ∈ u_stdout r → ("sig size", s) ∈ u_stdout r →
  ("bootstub size", b) ∈ u_stdout r →
  ("kernel size", ks) ∈ u_stdout r → ("ramdisk size", rs) ∈ u_stdout r →
  h + s + 4096 + b + ks + rs ≤ len bytes →
  u_files r !! "bootstub" = Some (Some <$> region bytes (h + s + 4096) b) ∧
  u_files r !! "kernel"
    = Some (Some <$> region bytes (h + s + 4096 + b) ks) ∧
  u_files r !! "ramdisk.cpio.gz"
    = Some (Some <$> region bytes (h + s + 4096 + b + ks) rs) ∧
  (b = 4096 ∨ b = 8192) ∧
  load_u32 (Some <$> region bytes (h + s + 1024) 4) = Some ks ∧
  load_u32 (Some <$> region bytes (h + s + 1028) 4) = Some rs.
Proof.
  intros Hr Hst Hh Hs Hb Hks Hrs HL. apply unpack_detection in Hr
    as (v0 & s' & n & v2 & ks' & rs' & H0 & H01 & Hs' & HL' & Hn & H2 & Hk
        & Hrd & ->).
  apply segments_stdout in Hh, Hs, Hb.
  match type of Hst with context [segments ?a ?b ?c ?d ?e ?f ?g ?i] =>
    destruct (segments_files a b c d e f g i) as (_&_&_&_&Hbf&Hkf&Hrf);
    destruct (segments_status a b c d e f g i) as (Hs1 & Hs2 & Hs3)
  end.
  destruct (decide (ks' < 500000 ∨ ks' > 15000000)) as [Hk1|Hk1].
  { destruct (Hs1 Hk1) as [Hx _]. rewrite Hx in Hst. done. }
  destruct (decide (rs' < 10000 ∨ rs' > 300000000)) as [Hr1|Hr1].
  { destruct (Hs2 Hk1 Hr1) as [Hx _]. rewrite Hx in Hst. done. }
  assert (ks = ks' ∧ rs = rs') as [-> ->].
  { clear Hbf Hkf Hrf Hs1 Hs2 Hs3 Hst. unfold segments in Hks, Hrs.
    rewrite (decide_False (P := ks' < 500000 ∨ ks' > 15000000)) in Hks, Hrs
      by done.
    rewrite (decide_False (P := rs' < 10000 ∨ rs' > 300000000)) in Hks, Hrs
      by done.
    simpl in Hks, Hrs. rewrite !elem_of_cons, elem_of_nil in Hks, Hrs.
    split; [destruct Hks as [?|[?|[?|[?|[?|[]]]]]]
           |destruct Hrs as [?|[?|[?|[?|[?|[]]]]]]]; congruence. }
  subst h s.
  assert (0 ≤ (if decide (v0 = 0) then 512 else 0) ≤ 512)
    by (destruct (decide (v0 = 0)); lia).
  assert (0 ≤ s' ≤ 1024)
    by (rewrite Hs'; clear; repeat (match goal with
          |- context [decide ?P] => destruct (decide P) end); lia).
  assert (4095 ≤ b) as Hb0.
  { rewrite Hb. clear. repeat (match goal with
      |- context [decide ?P] => destruct (decide P) end); lia. }
  assert (b = 4096 ∨ b = 8192) as Hb48.
  { rewrite Hb. rewrite (decide_True (P := _ ≤ len bytes)) by lia.
    destruct (decide (v2 = 0)); lia. }
  rewrite <- Hb in *.
  rewrite cut_full in Hbf, Hkf, Hrf by lia.
  split_and!; done.
Qed.

(** X9: every run of [unpack] ends with status 0 and no diagnostic, or
    with status 1 and exactly one diagnostic.  When the input file cannot
    be opened nothing is emitted; when a size check fails, the cmdline,
    parameter and bootstub artifacts emitted before the check are left
    behind. *)
Theorem unpack_status_and_diagnostics image r :
  unpack isalnum image = Some r →
  (u_status r = 0 ∧ u_stderr r = []
   ∨ u_status r = 1 ∧ ∃ d, u_stderr r = [d]) ∧
  (image = None →
     u_stderr r = [cannot_open_input filename] ∧ u_files r = ∅) ∧
  (image ≠ None →
     is_Some (u_files r !! "cmdline.txt") ∧
     is_Some (u_files r !! "parameter") ∧
     is_Some (u_files r !! "bootstub")).
Proof.
  destruct image as [bytes|]; intros Hr.
  - apply unpack_detection in Hr
      as (v0 & s' & n & v2 & ks & rs & H0 & H01 & Hs' & HL & Hn & H2 & Hk
          & Hrd & ->).
    match goal with |- context [segments ?a ?b ?c ?d ?e ?f ?g ?i] =>
      destruct (segments_files a b c d e f g i) as (_&_&Hc&Hp&Hb&_);
      destruct (segments_status a b c d e f g i) as (Hs1 & Hs2 & Hs3)
    end.
    split_and!; [|done|intros _; rewrite Hc, Hp, Hb; eauto].
    destruct (decide (ks < 500000 ∨ ks > 15000000)) as [Hk1|Hk1].
    { destruct (Hs1 Hk1) as [-> ->]. right. eauto. }
    destruct (decide (rs < 10000 ∨ rs > 300000000)) as [Hr1|Hr1].
    { destruct (Hs2 Hk1 Hr1) as [-> ->]. right. eauto. }
    destruct (Hs3 Hk1 Hr1) as [-> ->]. by left.
  - injection Hr as <-. simpl. split_and!; [right; eauto|done|done].
Qed.

(** X10: on a stream of at least 9730 bytes (enough for the largest
    header and signature, the fixed block and the bootstub probe) the
    behaviour of [unpack] is defined exactly when the 1024-byte cmdline
    region that it finds holds a NUL byte: without one, [strlen] runs
    past the bytes that were read. *)
Theorem unpack_defined_iff_cmdline_terminated bytes :
  9730 ≤ len bytes →
  ∃ v0 s,
    let h := if decide (v0 = 0) then 512 else 0 in
    probe4 bytes 0 = Some v0 ∧
    s = (if decide (probe4 bytes h = Some 0) then
           if decide (probe4 bytes (h + 480) = Some 0) then
             if decide (probe4 bytes (h + 728) = Some 0) then 1024
             else 728
           else 480
         else 0) ∧
    (is_Some (unpack isalnum (Some bytes))
     ↔ 0 ∈ region bytes (h + s) 1024).
Proof.
  intros HL.
  destruct (check_byte_fits isalnum bytes 0 4 1) as (v0 & E0 & _); [lia..|].
  exists v0. eexists. cbv zeta. split; [by rewrite E0|]. split; [done|].
  match goal with |- context [region bytes (?h + ?s) 1024] =>
    set (hh := h); set (ss := s)
  end.
  assert (0 ≤ hh ≤ 512) by (unfold hh; destruct (decide (v0 = 0)); lia).
  assert (0 ≤ ss ≤ 1024)
    by (unfold ss; clear; repeat (match goal with
          |- context [decide ?P] => destruct (decide P) end); lia).
  rewrite <- strlen_is_Some. split.
  - intros [r Hr]. apply unpack_detection in Hr
      as (v0' & s' & n & v2 & ks & rs & Hv & H01 & Hs' & HL' & Hn & H2 & Hk
          & Hrd & _).
    rewrite E0 in Hv. injection Hv as <-. fold hh in Hs', Hn.
    fold ss in Hs'. subst s'. by eexists.
  - intros [n Hn]. eapply (unpack_complete bytes v0 ss n);
      [by rewrite E0|done|fold hh; lia|done].
Qed.

End LocatorMore.

(** The lines printed by a run on a sample image, by evaluation. *)
Ltac printed_lines E out :=
  match type of E with unpack ?i ?img = Some ?r =>
    let H := fresh "Hout" in
    assert (u_stdout <$> unpack i img = Some out) as H
      by (vm_compute; reflexivity);
    rewrite E in H; injection H as H; rewrite H, ?elem_of_cons
  end.

Lemma unpack_headerless_is_unsigned_witness :
  ∃ r, unpack Libc.isalnum_mask (Some Samples.headerless_image) = Some r ∧
       ("sig size", 0) ∈ u_stdout r ∧ u_files r !! "sig" = None.
Proof.
  destruct (unpack Libc.isalnum_mask (Some Samples.headerless_image))
    as [r|] eqn:E; [|by vm_compute in E].
  destruct (unpack_headerless_is_unsigned _ _ _ E) as (Hs & _ & Hf & _).
  - printed_lines E [("header size", 0); ("sig size", 0);
                     ("bootstub size", 4096)]. auto.
  - exists r. exact (conj eq_refl (conj Hs Hf)).
Defined.



Lemma unpack_parameter_artifact_witness :
  ∃ r, unpack Libc.isalnum_mask (Some Samples.short_image) = Some r ∧
       u_files r !! "parameter"
       = Some (Some <$> region Samples.short_image (512 + 480 + 1032) 8).
Proof.
  destruct (unpack Libc.isalnum_mask (Some Samples.short_image))
    as [r|] eqn:E; [|by vm_compute in E].
  destruct (unpack_parameter_artifact _ _ _ 512 480 E) as (Hf & _);
    [printed_lines E [("header size", 512); ("sig size", 480);
                      ("bootstub size", 4096)]; auto..|].
  exists r. exact (conj eq_refl Hf).
Defined.

Lemma unpack_succeeds_iff_sizes_in_range_witness :
  ∃ r ks rs,
    unpack Libc.isalnum_mask (Some Samples.image) = Some r ∧
    (u_status r = 0 ↔ 500000 ≤ ks ≤ 15000000 ∧ 10000 ≤ rs ≤ 300000000).
Proof.
  assert (u_status <$> unpack Libc.isalnum_mask (Some Samples.image)
          = Some 0) as Hst by (vm_compute; reflexivity).
  destruct (unpack Libc.isalnum_mask (Some Samples.image))
    as [r|] eqn:E; [clear Hst|discriminate Hst].
  destruct (unpack_succeeds_iff_sizes_in_range _ _ _ 512 480 4096 E)
    as (ks & rs & _ & _ & Hiff & _);
    [printed_lines E [("header size", 512); ("sig size", 480);
                      ("bootstub size", 4096); ("kernel size", 500000);
                      ("ramdisk size", 10000)]; auto..|].
  exists r, ks, rs. exact (conj eq_refl Hiff).
Defined.

Lemma unpack_payload_regions_witness :
  ∃ r, unpack Libc.isalnum_mask (Some Samples.image) = Some r ∧
       u_files r !! "kernel"
       = Some (Some <$> region Samples.image (512 + 480 + 4096 + 4096)
                          500000).
Proof.
  assert (u_status <$> unpack Libc.isalnum_mask (Some Samples.image)
          = Some 0) as Hst by (vm_compute; reflexivity).
  destruct (unpack Libc.isalnum_mask (Some Samples.image))
    as [r|] eqn:E; [|discriminate Hst].
  injection Hst as Hst.
  destruct (unpack_payload_regions _ _ _ 512 480 4096 500000 10000 E Hst)
    as (_ & Hk & _);
    [printed_lines E [("header size", 512); ("sig size", 480);
                      ("bootstub size", 4096); ("kernel size", 500000);
                      ("ramdisk size", 10000)]; auto 10..
    |vm_compute; discriminate|].
  exists r. exact (conj eq_refl Hk).
Defined.

Lemma unpack_status_and_diagnostics_witness :
  ∃ r, unpack Libc.isalnum_mask (Some Samples.short_image) = Some r ∧
       (u_status r = 0 ∧ u_stderr r = []
        ∨ u_status r = 1 ∧ ∃ d, u_stderr r = [d]).
Proof.
  destruct (unpack Libc.isalnum_mask (Some Samples.short_image))
    as [r|] eqn:E; [|by vm_compute in E].
  destruct (unpack_status_and_diagnostics _ _ _ E) as (H & _).
  exists r. exact (conj eq_refl H).
Defined.

Lemma unpack_defined_iff_cmdline_terminated_witness :
  ∃ v0 s,
    fst <$> check_byte Libc.isalnum_mask (mkFILE Samples.short_image 0) 4 1
      = Some v0 ∧
    (is_Some (unpack Libc.isalnum_mask (Some Samples.short_image))
     ↔ 0 ∈ region Samples.short_image
             ((if decide (v0 = 0) then 512 else 0) + s) 1024).
Proof.
  destruct (unpack_defined_iff_cmdline_terminated Libc.isalnum_mask
              Samples.short_image)
    as (v0 & s & Hv & _ & Hiff); [vm_compute; discriminate|].
  exists v0, s. exact (conj Hv Hiff).
Defined.

(** ** More on the Image Assembler

    As in the model of [read_file], [malloc] is taken to return a non-null
    pointer for an artifact of 0 bytes too (as glibc, musl and bionic do),
    so that an empty artifact is read and not reported as missing. *)

Lemma memcpy_copied dst off src n d (i : nat) :
  memcpy dst off src n = Some d → d !! i = copied i off src n (dst !! i).
Proof. apply memcpy_lookup. Qed.

Lemma region_ext {A} (l l' : list A) o o' k :
  0 ≤ o → 0 ≤ o' →
  (∀ j : nat, Z.of_nat j < k →
     l !! (Z.to_nat o + j)%nat = l' !! (Z.to_nat o' + j)%nat) →
  region l o k = region l' o' k.
Proof.
  intros Ho Ho' H. apply list_eq. intros j.
  destruct (decide (Z.of_nat j < k)) as [Hj|Hj].
  - rewrite !region_lookup by lia. by apply H.
  - unfold region. by rewrite !lookup_take_ge by lia.
Qed.

Lemma memcpy_region_inside dst off src n d o k :
  memcpy dst off src n = Some d → 0 ≤ off → off ≤ o → o + k ≤ off + n →
  region d o k = region src (o - off) k.
Proof.
  intros Hd Hoff Ho Hk. apply region_ext; [lia..|]. intros j Hj.
  rewrite (memcpy_lookup _ _ _ _ _ _ Hd), decide_True by lia.
  f_equal. lia.
Qed.

Lemma load_u32_short l : (length l < 4)%nat → load_u32 l = None.
Proof.
  intros. destruct l as [|[?|] [|[?|] [|[?|] [|[?|] ?]]]]; try done.
  simpl in *. lia.
Qed.

Lemma load_u32_indeterminate l (j : nat) :
  (j < 4)%nat → l !! j = Some None → load_u32 l = None.
Proof.
  intros Hj Hl. destruct l as [|[?|] [|[?|] [|[?|] [|[?|] ?]]]]; try done.
  destruct j as [|[|[|[|?]]]]; simpl in *; try done. lia.
Qed.

Lemma round_up_bounds n :
  0 ≤ n → n ≤ 512 * ((n + 511) / 512) < n + 512.
Proof.
  intros. pose proof (Z.div_mod (n + 511) 512 ltac:(lia)).
  pose proof (Z.mod_pos_bound (n + 511) 512 ltac:(lia)). lia.
Qed.

Lemma region_all {A} (l : list A) : region l 0 (len l) = l.
Proof. unfold region. simpl. apply take_len. Qed.

Lemma round_up_512 n p :
  0 ≤ n → 0 ≤ p < 512 → (n + p) mod 512 = 0 →
  n + p = 512 * ((n + 511) / 512).
Proof.
  intros Hn Hp Hm. pose proof (Z.div_mod (n + p) 512 ltac:(lia)) as Hd.
  rewrite Hm in Hd.
  assert ((n + 511) / 512 = (n + p) / 512) as ->; [|lia].
  symmetry. apply Z.div_unique with (r := 511 - p); lia.
Qed.

(** The loop over the required artifacts stops at the first one that is
    missing, and reads all of them otherwise. *)
Lemma read_required_missing dir pre name post :
  Forall (λ n, is_Some (dir !! n)) pre → dir !! name = None →
  read_required dir (pre ++ name :: post) = inl (cannot_open_input name).
Proof.
  intros Hpre Hname. induction Hpre as [|n pre [d Hd] _ IH]; simpl.
  - by rewrite read_file_None.
  - unfold read_file at 1. rewrite Hd. simpl. by rewrite IH.
Qed.

Lemma read_required_cases dir names :
  (∃ n, n ∈ names ∧ dir !! n = None ∧
        read_required dir names = inl (cannot_open_input n)) ∨
  (∃ ds, read_required dir names = inr ds ∧ length ds = length names ∧
         Forall (λ n, is_Some (dir !! n)) names).
Proof.
  induction names as [|name names IH]; simpl.
  - right. by exists [].
  - destruct (dir !! name) as [d|] eqn:Ed.
    + destruct (read_file dir name) as [x|] eqn:Erf;
        [|unfold read_file in Erf; by rewrite Ed in Erf].
      destruct IH as [(n & Hn & Hd & ->)|(ds & -> & Hl & Hall)].
      * left. exists n. rewrite elem_of_cons. auto.
      * right. eexists. split; [reflexivity|]. simpl.
        split; [by rewrite Hl|]. constructor; [by rewrite Ed|done].
    + rewrite read_file_None by done.
      left. exists name. rewrite elem_of_cons. auto.
Qed.

(** X11: when a required artifact cannot be opened, [pack] reports the
    first such artifact in the order cmdline.txt, parameter, bootstub,
    kernel, ramdisk.cpio.gz, returns 1 and writes no image, whether or not
    the output file could be opened and whatever the optional hdr and sig
    artifacts are.  (The artifacts of the directory are smaller than 2^31
    bytes, so that [read_file] can hold their sizes in an [int].) *)
Theorem pack_missing_artifact dir writable pre name post :
  (∀ n d, dir !! n = Some d → len d < 2 ^ 31) →
  required_file = pre ++ name :: post →
  (∀ n, n ∈ pre → is_Some (dir !! n)) →
  dir !! name = None →
  pack dir writable = Some (mkPacked 1 [cannot_open_input name] None).
Proof.
  intros _ Hreq Hpre Hname. unfold pack. rewrite Hreq.
  rewrite read_required_missing; [done| |done].
  by apply Forall_forall.
Qed.

(** X12: a run of [pack] ends in one of three ways: status 0 with an
    image written and no diagnostic; status 1 with the diagnostic for the
    output file, all required artifacts being present; status 1 with the
    diagnostic for a required artifact that is indeed missing.  In the
    last two no image is written.  (The artifacts of the directory are
    smaller than 2^31 bytes.) *)
Theorem pack_status_and_diagnostics dir writable p :
  (∀ n d, dir !! n = Some d → len d < 2 ^ 31) →
  pack dir writable = Some p →
  (p_status p = 0 ∧ p_stderr p = [] ∧ is_Some (p_image p) ∧
   writable = true ∧ ∀ n, n ∈ required_file → is_Some (dir !! n)) ∨
  (p_status p = 1 ∧ p_stderr p = [cannot_open_output] ∧ p_image p = None ∧
   writable = false ∧ ∀ n, n ∈ required_file → is_Some (dir !! n)) ∨
  (p_status p = 1 ∧ p_image p = None ∧
   ∃ n, n ∈ required_file ∧ dir !! n = None ∧
        p_stderr p = [cannot_open_input n]).
Proof.
  intros _. unfold pack.
  destruct (read_required_cases dir required_file)
    as [(n & Hn & Hd & ->)|(ds & -> & Hl & Hall)].
  - intros [= <-]. right. right. simpl. split_and!; [done..|].
    by exists n.
  - rewrite Forall_forall in Hall.
    do 5 (destruct ds as [|? ds]; [done|]). destruct ds; [|done].
    destruct writable; simpl.
    + destruct (assemble _ _ _ _ _ _ _) as [image|]; simpl; [|done].
      intros [= <-]. left. simpl. by split_and!.
    + intros [= <-]. right. left. simpl. by split_and!.
Qed.

(** A file written from a buffer holds the bytes that the buffer
    determines; where the buffer is indeterminate it holds any byte. *)
Lemma written_region (image : list cell) (bytes l : list Z) o k :
  Forall2 (λ c z, c = None ∨ c = Some z) image bytes →
  region image o k = Some <$> l → region bytes o k = l.
Proof.
  intros HF Hreg. symmetry. apply list_eq_Forall2.
  assert (Forall2 (λ (c : cell) z, c = None ∨ c = Some z)
            (region image o k) (region bytes o k)) as HR
    by (unfold region; by apply Forall2_take, Forall2_drop).
  rewrite Hreg in HR. apply Forall2_fmap_l in HR.
  eapply Forall2_impl; [exact HR|]. intros x z [?|[= ->]]; done.
Qed.

Lemma determinate_cells (l : list cell) :
  Forall (λ c, ∃ z, c = Some z ∧ z ≠ 0) l →
  ∃ vals, l = Some <$> vals ∧ Forall (λ z, z ≠ 0) vals.
Proof.
  induction 1 as [|c l (z & -> & Hz) _ (vals & -> & Hv)].
  - by exists [].
  - exists (z :: vals). split; [done|by constructor].
Qed.

Section AssemblerMore.

Variable dir : gmap string (list cell).
Variables cmdline parameter bootstub kernel ramdisk : list cell.

Hypothesis cmdline_in : dir !! "cmdline.txt" = Some cmdline.
Hypothesis parameter_in : dir !! "parameter" = Some parameter.
Hypothesis bootstub_in : dir !! "bootstub" = Some bootstub.
Hypothesis kernel_in : dir !! "kernel" = Some kernel.
Hypothesis ramdisk_in : dir !! "ramdisk.cpio.gz" = Some ramdisk.

Let h := artifact_size dir "hdr".
Let s := artifact_size dir "sig".
Let img_size := h + s + 4096 + len bootstub + len kernel + len ramdisk.

(** X13: when the five required artifacts can be read and the output file
    cannot be opened, [pack] reports it, returns 1 and writes nothing: the
    output file is opened before any size is computed.  (The artifacts of
    the directory are smaller than 2^31 bytes.) *)
Theorem pack_unwritable_output :
  (∀ n d, dir !! n = Some d → len d < 2 ^ 31) →
  pack dir false = Some (mkPacked 1 [cannot_open_output] None).
Proof.
  intros _. unfold pack, required_file, read_required, read_file.
  by rewrite cmdline_in, parameter_in, bootstub_in, kernel_in, ramdisk_in.
Qed.

(** The image of [pack] is the buffer that [layout] describes. *)
Lemma pack_layout :
  img_size + 512 ≤ 2 ^ 31 →
  h + s + len cmdline ≤ img_size →
  h + s + 1032 + len parameter ≤ img_size →
  ∃ image x,
    pack dir true = Some (mkPacked 0 [] (Some image)) ∧
    len image = 512 * ((img_size + 511) / 512) ∧
    (is_Some (dir !! "hdr") → x = checksum image) ∧
    ∀ i : nat, Z.of_nat i < len image →
      image !! i = layout (dir !! "hdr") (dir !! "sig") cmdline parameter
                     bootstub kernel ramdisk (len image) x i.
Proof.
  intros Hint Hcmd Hpar.
  destruct (sizes_nonneg dir bootstub kernel ramdisk) as [Hh0 Hs0].
  fold h s in Hh0, Hs0.
  assert (0 ≤ img_size) as Hi0 by (unfold img_size; lia).
  destruct (padding_spec dir bootstub kernel ramdisk img_size Hi0)
    as [Hpad Htot]. cbv zeta in Hpad, Htot.
  destruct (assemble_chain dir cmdline parameter bootstub kernel ramdisk
              (dir !! "hdr") (dir !! "sig") eq_refl eq_refl Hint Hcmd Hpar)
    as (b1&b2&b3&b4&b5&b6&b7&b8&b9&b10&image&H).
  destruct H as (H1&H2&H3&H4&H5&H6&H7&H8&H9&H10&H11&Hlen&Hrun).
  fold h s in H1, H2, H3, H4, H5, H6, H7, H8, H9, H10, H11, Hlen.
  fold img_size in H1, H2, H10, H11, Hlen.
  remember (if decide (512 - img_size `rem` 512 < 512)
            then 512 - img_size `rem` 512 else 0) as padding eqn:Epad.
  assert (pack dir true = Some (mkPacked 0 [] (Some image))) as Hpack.
  { rewrite (pack_assemble dir cmdline parameter bootstub kernel ramdisk)
      by (try done; fold h s; unfold img_size in *; lia).
    by rewrite Hrun. }
  assert (padding = len image - img_size) as Ep by (rewrite Hlen; ring).
  assert (to_u32 (Z.quot (img_size + padding) 512 - 1) = len image / 512 - 1)
    as Esec.
  { rewrite Z.quot_div_nonneg by lia. rewrite <- Hlen.
    pose proof (Z.div_mod (len image) 512 ltac:(lia)).
    pose proof (Z.mod_pos_bound (len image) 512 ltac:(lia)).
    apply to_u32_small. unfold img_size in *. lia. }
  rewrite Esec in H11. rewrite Ep in H10 at 1 2. rewrite Ep in H1.
  replace (img_size + (len image - img_size)) with (len image) in H1 by lia.
  assert (∀ i : nat, Z.of_nat i < len image →
                     malloc (len image) !! i = Some None) as Hm.
  { intros i Hi. unfold malloc. apply lookup_replicate_2. lia. }
  clear Esec Hrun Epad.
  unfold h, s, artifact_size in *.
  destruct (dir !! "hdr") as [d|] eqn:Ehdr, (dir !! "sig") as [g|] eqn:Esig;
    cbn [from_option] in *.
  - destruct H2 as (b & Hg1 & Hg2). destruct H11 as (b' & x & Hs1 & Hx & Hs2).
    exists image, x. split; [done|]. split.
    { rewrite <- (round_up_512 _ padding); unfold img_size in *; lia. }
    split.
    { intros _.
      assert (56 ≤ len b') as Hb'
        by (pose proof (memcpy_length _ _ _ _ _ Hs2);
            unfold img_size in *; lia).
      rewrite hdr_xor_checksum in Hx by done.
      apply memcpy_cell in Hs2 as ->. rewrite checksum_insert. congruence. }
    intros i Hi. unfold layout. cbn [from_option].
    rewrite (memcpy_copied _ _ _ _ _ i Hs2), (memcpy_copied _ _ _ _ _ i Hs1),
      (memcpy_copied _ _ _ _ _ i H10), (memcpy_copied _ _ _ _ _ i H9),
      (memcpy_copied _ _ _ _ _ i H8), (memcpy_copied _ _ _ _ _ i H7),
      (memcpy_copied _ _ _ _ _ i H6), (memcpy_copied _ _ _ _ _ i H5),
      (memcpy_copied _ _ _ _ _ i H4), (memcpy_copied _ _ _ _ _ i H3),
      (memcpy_copied _ _ _ _ _ i Hg2), (memcpy_copied _ _ _ _ _ i Hg1),
      (memcpy_copied _ _ _ _ _ i H1), Hm by done.
    done.
  - destruct H2 as (t & Ht1 & Ht2). destruct H11 as (b' & x & Hs1 & Hx & Hs2).
    exists image, x. split; [done|]. split.
    { rewrite <- (round_up_512 _ padding); unfold img_size in *; lia. }
    split.
    { intros _.
      assert (56 ≤ len b') as Hb'
        by (pose proof (memcpy_length _ _ _ _ _ Hs2);
            unfold img_size in *; lia).
      rewrite hdr_xor_checksum in Hx by done.
      apply memcpy_cell in Hs2 as ->. rewrite checksum_insert. congruence. }
    assert (load_u32 t = load_u32 (region d 52 4)) as Et.
    { assert (t = region b1 52 4) as ->.
      { unfold memcpy in Ht1. case_decide; [|done].
        injection Ht1 as <-. simpl. by rewrite app_nil_r. }
      assert (52 + 4 ≤ len b1) as Hb1.
      { rewrite (memcpy_len _ _ _ _ _ _ H1 (malloc_length (len image) ltac:(lia))).
        unfold img_size in *. lia. }
      destruct (decide (56 ≤ len d)) as [Hd|Hd].
      - by rewrite (memcpy_region_inside _ _ _ _ _ 52 4 H1) by lia.
      - rewrite (load_u32_short (region d 52 4))
          by (pose proof (region_len d 52 4 ltac:(lia)); lia).
        apply (load_u32_indeterminate _ (Z.to_nat (len d - 52))); [lia|].
        rewrite region_lookup, (memcpy_lookup _ _ _ _ _ _ H1) by lia.
        rewrite decide_False by lia. apply Hm. lia. }
    rewrite Et in Ht2.
    intros i Hi. unfold layout. cbn [from_option].
    rewrite (memcpy_copied _ _ _ _ _ i Hs2), (memcpy_copied _ _ _ _ _ i Hs1),
      (memcpy_copied _ _ _ _ _ i H10), (memcpy_copied _ _ _ _ _ i H9),
      (memcpy_copied _ _ _ _ _ i H8), (memcpy_copied _ _ _ _ _ i H7),
      (memcpy_copied _ _ _ _ _ i H6), (memcpy_copied _ _ _ _ _ i H5),
      (memcpy_copied _ _ _ _ _ i H4), (memcpy_copied _ _ _ _ _ i H3),
      (memcpy_copied _ _ _ _ _ i Ht2),
      (memcpy_copied _ _ _ _ _ i H1), Hm by done.
    done.
  - destruct H2 as (b & Hg1 & Hg2). subst b1 image.
    exists b10, None. split; [done|]. split.
    { rewrite <- (round_up_512 _ padding); unfold img_size in *; lia. }
    split; [by intros [? ?]|].
    intros i Hi. unfold layout. cbn [from_option].
    rewrite (memcpy_copied _ _ _ _ _ i H10), (memcpy_copied _ _ _ _ _ i H9),
      (memcpy_copied _ _ _ _ _ i H8), (memcpy_copied _ _ _ _ _ i H7),
      (memcpy_copied _ _ _ _ _ i H6), (memcpy_copied _ _ _ _ _ i H5),
      (memcpy_copied _ _ _ _ _ i H4), (memcpy_copied _ _ _ _ _ i H3),
      (memcpy_copied _ _ _ _ _ i Hg2), (memcpy_copied _ _ _ _ _ i Hg1),
      Hm by done.
    done.
  - subst b1 b2 image.
    exists b10, None. split; [done|]. split.
    { rewrite <- (round_up_512 _ padding); unfold img_size in *; lia. }
    split; [by intros [? ?]|].
    intros i Hi. unfold layout. cbn [from_option].
    rewrite (memcpy_copied _ _ _ _ _ i H10), (memcpy_copied _ _ _ _ _ i H9),
      (memcpy_copied _ _ _ _ _ i H8), (memcpy_copied _ _ _ _ _ i H7),
      (memcpy_copied _ _ _ _ _ i H6), (memcpy_copied _ _ _ _ _ i H5),
      (memcpy_copied _ _ _ _ _ i H4), (memcpy_copied _ _ _ _ _ i H3),
      Hm by done.
    done.
Qed.

(** Resolve the tests of [layout] at a cell whose position is known. *)
Ltac settle :=
  cbv beta zeta iota delta [layout copied from_option];
  repeat match goal with
  | |- context [decide ?P] =>
      first [rewrite (decide_True (P := P)) by lia
            |rewrite (decide_False (P := P)) by lia]
  end.

(** Run [pack], name its image and the bounds of its length, and split
    on the presence of the optional artifacts. *)
Ltac pack_run Hint Hcmd Hpar :=
  let Hround := fresh "Hround" in
  let H0 := fresh "H0" in
  destruct (pack_layout Hint Hcmd Hpar)
    as (image & x & Hpack & Hlen & Hx & Hlay);
  destruct (sizes_nonneg dir bootstub kernel ramdisk) as [Hh0 Hs0];
  fold h s in Hh0, Hs0;
  assert (0 ≤ img_size) as H0 by (unfold img_size; lia);
  pose proof (round_up_bounds img_size H0) as Hround;
  rewrite <- Hlen in Hround; clear Hlen H0.

Ltac optional_artifacts :=
  unfold h, s, img_size, artifact_size in *;
  destruct (dir !! "hdr") as [hdr_data|] eqn:Ehdr,
           (dir !! "sig") as [sig_data|] eqn:Esig;
  cbn [from_option] in *.

(** X14: [pack] checks no size: whatever the lengths of the kernel and
    of the ramdisk, as long as the sizes fit an [int] and the two text
    artifacts end inside the buffer, it returns 0 and writes an image
    whose length is the sum of the parts rounded up to a multiple of 512;
    with a header, the four bytes at offset 48 hold the number of 512-byte
    sectors of the image minus one. *)
Theorem pack_image_size :
  img_size + 512 ≤ 2 ^ 31 →
  h + s + len cmdline ≤ img_size →
  h + s + 1032 + len parameter ≤ img_size →
  ∃ image,
    pack dir true = Some (mkPacked 0 [] (Some image)) ∧
    len image = 512 * ((img_size + 511) / 512) ∧
    (is_Some (dir !! "hdr") →
     load_u32 (region image 48 4) = Some (len image / 512 - 1)).
Proof.
  intros Hint Hcmd Hpar.
  destruct (pack_layout Hint Hcmd Hpar)
    as (image & x & Hpack & Hlen & Hx & Hlay).
  exists image. split; [done|]. split; [done|]. intros [d Hd].
  assert (0 ≤ img_size) as H0
    by (destruct (sizes_nonneg dir bootstub kernel ramdisk);
        unfold img_size, h, s; lia).
  pose proof (round_up_bounds img_size H0) as Hround.
  rewrite <- Hlen in Hround.
  assert (4096 ≤ len image)
    by (destruct (sizes_nonneg dir bootstub kernel ramdisk);
        unfold img_size, h, s in *; lia).
  assert (region image 48 4 = store_u32 (len image / 512 - 1)) as ->.
  { change (store_u32 (len image / 512 - 1))
      with (region (store_u32 (len image / 512 - 1)) 0 4).
    apply region_ext; [lia..|]. intros j Hj. rewrite Hlay by lia.
    rewrite Hd. settle. f_equal. lia. }
  apply load_store_u32.
  pose proof (Z.div_mod (len image) 512 ltac:(lia)).
  pose proof (Z.mod_pos_bound (len image) 512 ltac:(lia)). lia.
Qed.

(** X15: the header artifact is copied to the start of the image, and
    [pack] then changes only its byte at offset 7, its bytes at offsets 48
    to 51 and, when there is no signature, its bytes at offsets 52 to 55:
    every other byte of the header is in the image as it is in the
    artifact. *)
Theorem pack_header_verbatim hdr :
  dir !! "hdr" = Some hdr →
  img_size + 512 ≤ 2 ^ 31 →
  h + s + len cmdline ≤ img_size →
  h + s + 1032 + len parameter ≤ img_size →
  ∃ image,
    pack dir true = Some (mkPacked 0 [] (Some image)) ∧
    ∀ i : nat,
      Z.of_nat i < len hdr → i ≠ 7%nat → ¬ 48 ≤ Z.of_nat i < 52 →
      (dir !! "sig" = None → ¬ 52 ≤ Z.of_nat i < 56) →
      image !! i = hdr !! i.
Proof.
  intros Hhdr Hint Hcmd Hpar. pack_run Hint Hcmd Hpar.
  exists image. split; [done|]. intros i Hi H7 H48 H52.
  optional_artifacts; simplify_eq.
  - rewrite Hlay by lia. settle. f_equal. lia.
  - specialize (H52 eq_refl). rewrite Hlay by lia. settle. f_equal. lia.
Qed.

(** X16: without a signature, [pack] adds one (modulo 2^32) to the
    little-endian word at offset 52 of the header. *)
Theorem pack_imgtype_increment hdr v :
  dir !! "hdr" = Some hdr → dir !! "sig" = None →
  load_u32 (region hdr 52 4) = Some v →
  img_size + 512 ≤ 2 ^ 31 →
  h + s + len cmdline ≤ img_size →
  h + s + 1032 + len parameter ≤ img_size →
  ∃ image,
    pack dir true = Some (mkPacked 0 [] (Some image)) ∧
    load_u32 (region image 52 4) = Some ((v + 1) mod 2 ^ 32).
Proof.
  intros Hhdr Hsig Hv Hint Hcmd Hpar. pack_run Hint Hcmd Hpar.
  exists image. split; [done|].
  assert (56 ≤ len hdr) as H56.
  { destruct (decide (56 ≤ len hdr)) as [|Hn]; [done|].
    rewrite load_u32_short in Hv; [done|].
    pose proof (region_len hdr 52 4 ltac:(lia)). lia. }
  optional_artifacts; simplify_eq.
  assert (region image 52 4 = store_u32 ((v + 1) mod 2 ^ 32)) as ->.
  { change (store_u32 ((v + 1) mod 2 ^ 32))
      with (region (store_u32 ((v + 1) mod 2 ^ 32)) 0 4).
    apply region_ext; [lia..|]. intros j Hj. rewrite Hlay by lia.
    settle. rewrite Hv. simpl. f_equal. lia. }
  apply load_store_u32. apply Z.mod_pos_bound. lia.
Qed.

(** X17: with a signature, [pack] copies the sig artifact right after the
    header and stores the eight bytes BD 02 BD 02 BD 12 BD 12 at offset
    header + signature + 1040; they are in the image when the cmdline
    artifact has at most 1040 bytes and the parameter artifact at most 8
    (a header, if there is one, having at least 52 bytes). *)
Theorem pack_signature_block sig :
  dir !! "sig" = Some sig →
  dir !! "hdr" = None ∨ 52 ≤ h →
  len cmdline ≤ 1040 → len parameter ≤ 8 →
  img_size + 512 ≤ 2 ^ 31 →
  ∃ image,
    pack dir true = Some (mkPacked 0 [] (Some image)) ∧
    region image h s = sig ∧
    region image (h + s + 1040) 8 = sig_magic.
Proof.
  intros Hsig Hh Hc Hp Hint.
  assert (h + s + len cmdline ≤ img_size ∧
          h + s + 1032 + len parameter ≤ img_size) as [Hcmd Hpar]
    by (unfold img_size; lia).
  pack_run Hint Hcmd Hpar. exists image. split; [done|].
  optional_artifacts; simplify_eq; (destruct Hh as [?|Hh]; [done|]) || clear Hh.
  all: split.
  all: try (rewrite <- (region_all sig) at 2; apply region_ext; [lia..|];
            intros j Hj; rewrite Hlay by lia; settle; f_equal; lia).
  all: change sig_magic with (region sig_magic 0 8);
    apply region_ext; [lia..|]; intros j Hj; rewrite Hlay by lia;
    settle; f_equal; lia.
Qed.

(** X18: the bootstub artifact is in the image at offset header +
    signature + 4096, whatever its length.  Each byte of a cmdline
    artifact of at most 1024 bytes is in the image at offset header +
    signature + its index, except at the offsets 7 and 48 to 51 of an
    image with a header, which hold the checksum and the sector count
    (they fall inside the command line only when header + signature is
    less than 52).  So the whole cmdline artifact is in the image when
    there is no header or header + signature is at least 52. *)
Theorem pack_cmdline_and_bootstub :
  len cmdline ≤ 1024 →
  img_size + 512 ≤ 2 ^ 31 →
  h + s + 1032 + len parameter ≤ img_size →
  ∃ image,
    pack dir true = Some (mkPacked 0 [] (Some image)) ∧
    region image (h + s + 4096) (len bootstub) = bootstub ∧
    (∀ j : nat,
       Z.of_nat j < len cmdline →
       (is_Some (dir !! "hdr") →
        h + s + Z.of_nat j ≠ 7 ∧ ¬ 48 ≤ h + s + Z.of_nat j < 52) →
       image !! (Z.to_nat (h + s) + j)%nat = cmdline !! j) ∧
    (dir !! "hdr" = None ∨ 52 ≤ h + s →
     region image (h + s) (len cmdline) = cmdline).
Proof.
  intros Hc Hint Hpar.
  assert (h + s + len cmdline ≤ img_size) as Hcmd by (unfold img_size; lia).
  pack_run Hint Hcmd Hpar. exists image. split; [done|].
  assert (∀ j : nat,
    Z.of_nat j < len cmdline →
    (is_Some (dir !! "hdr") →
     h + s + Z.of_nat j ≠ 7 ∧ ¬ 48 ≤ h + s + Z.of_nat j < 52) →
    image !! (Z.to_nat (h + s) + j)%nat = cmdline !! j) as Hcells.
  { intros j Hj Hfix.
    optional_artifacts; simplify_eq;
      try (destruct (Hfix ltac:(by eexists)) as [Hf1 Hf2]); clear Hfix.
    all: rewrite Hlay by lia; settle; f_equal; lia. }
  split_and!; [|done|].
  - clear Hcells. optional_artifacts; simplify_eq.
    all: rewrite <- (region_all bootstub) at 2; apply region_ext; [lia..|];
      intros j Hj; rewrite Hlay by lia; settle; f_equal; lia.
  - intros Hh. rewrite <- (region_all cmdline) at 2.
    apply region_ext; [lia..|]. intros j Hj. simpl. apply Hcells; [done|].
    intros Hhdr. destruct Hh as [Hh|Hh]; [rewrite Hh in Hhdr; by destruct Hhdr|].
    lia.
Qed.

(** X19: [pack] never writes the bytes between the end of the cmdline
    artifact and the size fields, nor the bytes between the end of the
    parameter artifact and the bootstub, apart from the eight marker
    bytes of a signed image and, in an image with a header, the bytes at
    offsets 7, 48 to 51 and (without a signature) 52 to 55 that the
    fix-ups of the header write (they fall there only when the header has
    fewer than 56 bytes): the buffer comes from [malloc], and these bytes
    of the image are indeterminate. *)
Theorem pack_filler_indeterminate :
  img_size + 512 ≤ 2 ^ 31 →
  h + s + len cmdline ≤ img_size →
  h + s + 1032 + len parameter ≤ img_size →
  ∃ image,
    pack dir true = Some (mkPacked 0 [] (Some image)) ∧
    ∀ i : nat,
      h + s + len cmdline ≤ Z.of_nat i →
      Z.of_nat i < h + s + 1024 ∨
      (h + s + 1032 + len parameter ≤ Z.of_nat i < h + s + 4096 ∧
       (is_Some (dir !! "sig") →
        ¬ h + s + 1040 ≤ Z.of_nat i < h + s + 1048)) →
      (is_Some (dir !! "hdr") →
       i ≠ 7%nat ∧ ¬ 48 ≤ Z.of_nat i < 52 ∧
       (dir !! "sig" = None → ¬ 52 ≤ Z.of_nat i < 56)) →
      image !! i = Some None.
Proof.
  intros Hint Hcmd Hpar. pack_run Hint Hcmd Hpar.
  exists image. split; [done|]. intros i Hi Hf Hfix.
  optional_artifacts; simplify_eq;
    try (destruct (Hfix ltac:(by eexists)) as (Hf1 & Hf2 & Hf3);
         try specialize (Hf3 eq_refl)); clear Hfix.
  all: try (assert (¬ len hdr_data + len sig_data + 1040 ≤ Z.of_nat i
                      < len hdr_data + len sig_data + 1048)
              by (destruct Hf as [?|[_ Hf]]; [lia|by apply Hf]));
       try (assert (¬ 0 + len sig_data + 1040 ≤ Z.of_nat i
                      < 0 + len sig_data + 1048)
              by (destruct Hf as [?|[_ Hf]]; [lia|by apply Hf])).
  all: assert (Z.of_nat i < h + s + 4096) by lia.
  all: rewrite Hlay by lia; settle; done.
Qed.

Variable isalnum : Z → Z.

(** X20: unpacking what [pack] wrote.  Take any file that holds the
    image of [pack] (any bytes where the image is indeterminate), and a
    run of [unpack] on it that finds the header and the signature with
    the sizes of the hdr and sig artifacts.  It reads the lengths of the
    kernel and of the ramdisk from the size fields, so it returns 0
    exactly when both are in the accepted ranges, which [pack] did not
    check.  When the cmdline artifact has fewer than 1024 characters and
    no NUL, and there is no header or header + signature is at least 52
    (so that the fix-ups of the header do not fall on the command line),
    cmdline.txt begins with these characters, and is the artifact again
    exactly when the byte that follows them in the file, which [pack]
    did not write, happens to be 0. *)
Theorem pack_then_unpack image bytes r :
  img_size + 512 ≤ 2 ^ 31 →
  h + s + len cmdline ≤ img_size →
  h + s + 1032 + len parameter ≤ img_size →
  pack dir true = Some (mkPacked 0 [] (Some image)) →
  Forall2 (λ c z, c = None ∨ c = Some z) image bytes →
  unpack isalnum (Some bytes) = Some r →
  ("header size", h) ∈ u_stdout r → ("sig size", s) ∈ u_stdout r →
  (u_status r = 0 ↔
     500000 ≤ len kernel ≤ 15000000 ∧ 10000 ≤ len ramdisk ≤ 300000000) ∧
  (Forall (λ c, ∃ z, c = Some z ∧ z ≠ 0) cmdline → len cmdline < 1024 →
   dir !! "hdr" = None ∨ 52 ≤ h + s →
   ∃ txt,
     u_files r !! "cmdline.txt" = Some txt ∧
     take (length cmdline) txt = cmdline ∧
     (txt = cmdline ↔ bytes !! Z.to_nat (h + s + len cmdline) = Some 0)).
Proof.
  intros Hint Hcmd Hpar Hrun HF Hr Hhs Hss.
  destruct (pack_layout Hint Hcmd Hpar)
    as (image' & x & Hpack & Hlen & Hx & Hlay).
  rewrite Hrun in Hpack. injection Hpack as <-.
  destruct (sizes_nonneg dir bootstub kernel ramdisk) as [Hh0 Hs0].
  fold h s in Hh0, Hs0.
  assert (0 ≤ img_size) as H0 by (unfold img_size; lia).
  pose proof (round_up_bounds img_size H0) as Hround.
  rewrite <- Hlen in Hround. clear Hlen H0 Hx Hrun.
  (* the regions of the image that matter *)
  assert (region image (h + s + 1024) 4 = store_u32 (len kernel) ∧
          region image (h + s + 1028) 4 = store_u32 (len ramdisk) ∧
          (len cmdline < 1024 → dir !! "hdr" = None ∨ 52 ≤ h + s →
           region image (h + s) (len cmdline) = cmdline))
    as (Rk & Rr & Rc).
  { optional_artifacts; simplify_eq.
    all: split_and!.
    all: try (intros Hc [?|Hh]; [done..|];
              rewrite <- (region_all cmdline) at 2; apply region_ext;
              [lia..|]; intros j Hj; rewrite Hlay by lia; settle;
              f_equal; lia).
    all: try (intros Hc _;
              rewrite <- (region_all cmdline) at 2; apply region_ext;
              [lia..|]; intros j Hj; rewrite Hlay by lia; settle;
              f_equal; lia).
    all: match goal with |- region _ _ 4 = store_u32 ?v =>
           change (store_u32 v) with (region (store_u32 v) 0 4)
         end; apply region_ext; [lia..|]; intros j Hj;
         rewrite Hlay by lia; settle; f_equal; lia. }
  clear Hlay.
  change (store_u32 (len kernel)) with
    (Some <$> [len kernel mod 256; len kernel / 256 mod 256;
               len kernel / 65536 mod 256; len kernel / 16777216 mod 256])
    in Rk.
  change (store_u32 (len ramdisk)) with
    (Some <$> [len ramdisk mod 256; len ramdisk / 256 mod 256;
               len ramdisk / 65536 mod 256; len ramdisk / 16777216 mod 256])
    in Rr.
  apply (written_region _ _ _ _ _ HF) in Rk, Rr.
  (* the run of unpack *)
  apply unpack_detection in Hr
    as (v0 & s' & n & v2 & ks & rs & _ & _ & _ & HL & Hn & _ & Hk & Hrd & ->).
  apply segments_stdout in Hhs, Hss. rewrite <- Hhs, <- Hss in *.
  clear Hhs Hss.
  rewrite Rk in Hk. rewrite Rr in Hrd.
  change (load_u32 (store_u32 (len kernel)) = Some ks) in Hk.
  change (load_u32 (store_u32 (len ramdisk)) = Some rs) in Hrd.
  rewrite load_store_u32 in Hk, Hrd by (unfold img_size in *; lia).
  injection Hk as <-. injection Hrd as <-.
  match goal with |- context [segments ?a ?b ?c ?d ?e ?f ?g ?i] =>
    destruct (segments_files a b c d e f g i) as (_&_&Hcf&_);
    destruct (segments_status a b c d e f g i) as (Hs1 & Hs2 & Hs3);
    set (res := segments a b c d e f g i) in *
  end.
  cbv zeta in Hcf. split.
  { destruct (decide (len kernel < 500000 ∨ len kernel > 15000000))
      as [Hk1|Hk1]; [destruct (Hs1 Hk1) as [-> _]; lia|].
    destruct (decide (len ramdisk < 10000 ∨ len ramdisk > 300000000))
      as [Hr1|Hr1]; [destruct (Hs2 Hk1 Hr1) as [-> _]; lia|].
    destruct (Hs3 Hk1 Hr1) as [-> _]. lia. }
  intros Hnul Hc Hh. specialize (Rc Hc Hh).
  destruct (determinate_cells _ Hnul) as (vals & -> & Hvals).
  rewrite length_fmap in *.
  apply (written_region _ _ _ _ _ HF) in Rc.
  eexists. split; [exact Hcf|]. clear Hcf Hs1 Hs2 Hs3 res.
  (* the characters of the artifact come first in the cmdline region *)
  set (l := region bytes (h + s) 1024) in *.
  assert (take (length vals) l = vals) as Hpre.
  { unfold l. rewrite region_take by lia. exact Rc. }
  assert (len l = 1024) as Hl
    by (unfold l; rewrite region_length; lia).
  destruct (strlen_spec _ _ Hn) as [Hz Hnz].
  assert (length vals ≤ n)%nat as Hge.
  { destruct (decide (length vals ≤ n)%nat) as [|Hlt]; [done|].
    exfalso. rewrite Forall_lookup in Hvals. apply (Hvals n 0); [|done].
    rewrite <- Hpre, lookup_take_lt by lia. exact Hz. }
  assert (region bytes (h + s) (Z.of_nat n) = take n l) as Etxt
    by (unfold l; by rewrite region_take by (apply strlen_lt in Hn; lia)).
  rewrite Etxt. split.
  { rewrite <- fmap_take, take_take, Nat.min_l by lia. by rewrite Hpre. }
  assert (bytes !! Z.to_nat (h + s + len vals) = l !! length vals) as ->.
  { unfold l. rewrite region_lookup by lia. f_equal. lia. }
  split.
  - intros Heq. apply (inj (fmap Some)) in Heq.
    assert (n = length vals) as <-; [|done].
    rewrite <- Heq, length_take. apply strlen_lt in Hn. lia.
  - intros Hzero. f_equal.
    assert (n = length vals) as ->; [|done].
    destruct (decide (n = length vals)) as [|Hne]; [done|]. exfalso.
    rewrite Forall_lookup in Hnz.
    apply (Hnz (length vals) 0); [|done].
    rewrite lookup_take_lt by lia. done.
Qed.

End AssemblerMore.

(** The sizes of the sample artifacts fit an [int]. *)
Lemma small_dir_sizes n d :
  Samples.small_dir !! n = Some d → len d < 2 ^ 31.
Proof.
  revert n d. apply map_Forall_lookup. unfold Samples.small_dir.
  repeat (apply map_Forall_insert_2; [by vm_compute|]).
  apply map_Forall_empty.
Qed.

Lemma partial_dir_sizes n d :
  Dirs.partial_dir !! n = Some d → len d < 2 ^ 31.
Proof.
  revert n d. apply map_Forall_lookup. unfold Dirs.partial_dir.
  repeat (apply map_Forall_insert_2; [by vm_compute|]).
  apply map_Forall_empty.
Qed.

Lemma pack_missing_artifact_witness :
  pack Dirs.partial_dir true
  = Some (mkPacked 1 [cannot_open_input "bootstub"] None).
Proof.
  apply (pack_missing_artifact _ _ ["cmdline.txt"; "parameter"] "bootstub"
           ["kernel"; "ramdisk.cpio.gz"]).
  - exact partial_dir_sizes.
  - reflexivity.
  - intros n Hn. rewrite !elem_of_cons, elem_of_nil in Hn.
    destruct Hn as [->|[->|[]]]; eexists; reflexivity.
  - reflexivity.
Defined.

Lemma pack_status_and_diagnostics_witness :
  ∃ p, pack Samples.small_dir false = Some p ∧ p_image p = None.
Proof.
  destruct (pack Samples.small_dir false) as [p|] eqn:E;
    [|by vm_compute in E].
  exists p. split; [reflexivity|].
  destruct (pack_status_and_diagnostics _ _ _ small_dir_sizes E)
    as [(_ & _ & _ & Hw & _)|[(_ & _ & Hi & _)|(_ & Hi & _)]];
    [discriminate Hw|exact Hi|exact Hi].
Defined.

Lemma pack_unwritable_output_witness :
  pack Samples.small_dir false
  = Some (mkPacked 1 [cannot_open_output] None).
Proof.
  exact (pack_unwritable_output Samples.small_dir _ _ _ _ _
           eq_refl eq_refl eq_refl eq_refl eq_refl small_dir_sizes).
Defined.

Lemma pack_image_size_witness :
  ∃ image,
    pack Samples.full_dir true = Some (mkPacked 0 [] (Some image)) ∧
    load_u32 (region image 48 4) = Some (len image / 512 - 1).
Proof.
  destruct (pack_image_size Samples.full_dir
              Samples.cmdline Samples.parameter Samples.bootstub
              Samples.kernel Samples.ramdisk)
    as (image & Hrun & _ & Hsec);
    [reflexivity..| | | |];
    [vm_compute; repeat split; discriminate..| ].
  exists image. split; [exact Hrun|]. apply Hsec. eexists. reflexivity.
Defined.

Lemma pack_header_verbatim_witness :
  ∃ image,
    pack Samples.full_dir true = Some (mkPacked 0 [] (Some image)) ∧
    image !! 0%nat = Samples.hdr !! 0%nat.
Proof.
  destruct (pack_header_verbatim Samples.full_dir
              Samples.cmdline Samples.parameter Samples.bootstub
              Samples.kernel Samples.ramdisk
              eq_refl eq_refl eq_refl eq_refl eq_refl Samples.hdr)
    as (image & Hrun & Hhdr);
    [reflexivity| | | |];
    [vm_compute; repeat split; discriminate..| ].
  exists image. split; [exact Hrun|].
  apply Hhdr; [reflexivity|discriminate|simpl; lia|simpl; lia].
Defined.

Lemma pack_imgtype_increment_witness :
  ∃ image,
    pack Dirs.unsigned_dir true = Some (mkPacked 0 [] (Some image)) ∧
    load_u32 (region image 52 4) = Some ((4294967295 + 1) mod 2 ^ 32).
Proof.
  destruct (pack_imgtype_increment Dirs.unsigned_dir
              (Some <$> [97; 98; 99]) Samples.parameter9
              (replicate 16 (Some 200)) (replicate 5 (Some 7))
              (replicate 3 (Some 9))
              eq_refl eq_refl eq_refl eq_refl eq_refl
              Samples.hdr 4294967295)
    as (image & Hrun & Hv);
    [reflexivity|reflexivity|reflexivity| | | |];
    [vm_compute; repeat split; discriminate..| ].
  exists image. exact (conj Hrun Hv).
Defined.

Lemma pack_signature_block_witness :
  ∃ image,
    pack Samples.full_dir true = Some (mkPacked 0 [] (Some image)) ∧
    region image (512 + 480 + 1040) 8 = sig_magic.
Proof.
  destruct (pack_signature_block Samples.full_dir
              Samples.cmdline Samples.parameter Samples.bootstub
              Samples.kernel Samples.ramdisk
              eq_refl eq_refl eq_refl eq_refl eq_refl
              (replicate 480 (Some 1)))
    as (image & Hrun & _ & Hm);
    [reflexivity|right| | | |];
    [vm_compute; repeat split; discriminate..| ].
  exists image. exact (conj Hrun Hm).
Defined.

Lemma pack_cmdline_and_bootstub_witness :
  ∃ image,
    pack Samples.full_dir true = Some (mkPacked 0 [] (Some image)) ∧
    region image (512 + 480) 3 = Samples.cmdline.
Proof.
  destruct (pack_cmdline_and_bootstub Samples.full_dir
              Samples.cmdline Samples.parameter Samples.bootstub
              Samples.kernel Samples.ramdisk)
    as (image & Hrun & _ & _ & Hc);
    [reflexivity..| | | |];
    [vm_compute; repeat split; discriminate..| ].
  exists image. split; [exact Hrun|]. apply Hc. right.
  vm_compute. discriminate.
Defined.

Lemma pack_filler_indeterminate_witness :
  ∃ image,
    pack Samples.full_dir true = Some (mkPacked 0 [] (Some image)) ∧
    image !! 1000%nat = Some None ∧ image !! 3000%nat = Some None.
Proof.
  destruct (pack_filler_indeterminate Samples.full_dir
              Samples.cmdline Samples.parameter Samples.bootstub
              Samples.kernel Samples.ramdisk)
    as (image & Hrun & Hf);
    [reflexivity..| | | |];
    [vm_compute; repeat split; discriminate..| ].
  exists image. split; [exact Hrun|]. split; apply Hf.
  - vm_compute. discriminate.
  - left. vm_compute. reflexivity.
  - intros _. split_and!; [discriminate|simpl; lia|simpl; lia].
  - vm_compute. discriminate.
  - right. split; [vm_compute; repeat split; discriminate|].
    intros _. vm_compute. intros [_ H]. discriminate H.
  - intros _. split_and!; [discriminate|simpl; lia|simpl; lia].
Defined.

(** ** Unpacking, then packing *)

Lemma cut_lookup bytes o n (j : nat) :
  0 ≤ o → Z.of_nat j < n →
  cut bytes o n !! j = Some (bytes !! (Z.to_nat o + j)%nat).
Proof.
  intros Ho Hj. unfold cut. pose proof (region_len bytes o n Ho) as Hl.
  destruct (decide (Z.of_nat j < len (region bytes o n))) as [Hin|Hout].
  - rewrite lookup_app_l by (rewrite length_fmap; lia).
    rewrite list_lookup_fmap, region_lookup by lia.
    destruct (bytes !! _) eqn:E; [done|]. apply lookup_ge_None in E. lia.
  - rewrite lookup_app_r by (rewrite length_fmap; lia).
    rewrite length_fmap, lookup_replicate_2 by lia.
    rewrite (proj2 (lookup_ge_None _ _)); [done|]. lia.
Qed.

(** [pack] on the artifacts of the reference locator. *)
Lemma segments_pack bytes (hdr : bool) h s n b ks rs :
  h = (if hdr then 512 else 0) → 0 ≤ s ≤ 1024 → 0 ≤ n < 1024 →
  h + s + 1024 ≤ len bytes → 4095 ≤ b ≤ 8192 →
  ¬ (ks < 500000 ∨ ks > 15000000) → ¬ (rs < 10000 ∨ rs > 300000000) →
  ∃ image x,
    pack (u_files (segments bytes hdr h s n b ks rs)) true
    = Some (mkPacked 0 [] (Some image)) ∧
    len image = 512 * ((h + s + 4096 + b + ks + rs + 511) / 512) ∧
    (hdr = true → x = checksum image) ∧
    ∀ i : nat, Z.of_nat i < len image →
      image !! i =
      layout (if hdr then Some (cut bytes 0 512) else None)
        (if decide (s > 0) then Some (cut bytes h s) else None)
        (cut bytes (h + s) n) (cut bytes (h + s + 1032) 8)
        (cut bytes (h + s + 4096) b) (cut bytes (h + s + 4096 + b) ks)
        (cut bytes (h + s + 4096 + b + ks) rs) (len image) x i.
Proof.
  intros Hh Hs Hn HL Hb Hks Hrs.
  destruct (segments_files bytes hdr h s n b ks rs)
    as (Hhdr & Hsig & Hc & Hp & Hbs & Hk & Hr). cbv zeta in *.
  rewrite decide_False in Hk, Hr by done. rewrite decide_False in Hr by done.
  assert (0 ≤ h ≤ 512) as Hh' by (destruct hdr; lia).
  rewrite <- cut_full in Hc by lia.
  set (dir := u_files (segments bytes hdr h s n b ks rs)) in *.
  assert (artifact_size dir "hdr" = h) as Eh.
  { unfold artifact_size. rewrite Hhdr. destruct hdr; simpl; [|done].
    by rewrite cut_length. }
  assert (artifact_size dir "sig" = s) as Es.
  { unfold artifact_size. rewrite Hsig. case_decide; simpl; [|lia].
    by rewrite cut_length by lia. }
  destruct (pack_layout dir _ _ _ _ _ Hc Hp Hbs Hk Hr)
    as (image & x & Hpack & Hlen & Hx & Hlay);
    rewrite ?Eh, ?Es, ?cut_length by lia; try lia.
  exists image, x. split; [done|].
  rewrite Eh, Es, !cut_length in Hlen by lia. split; [done|].
  split; [intros ->; apply Hx; by rewrite Hhdr|].
  intros i Hi. rewrite Hlay by done. by rewrite Hhdr, Hsig.
Qed.

Lemma store_load_u32 (l : list Z) v :
  length l = 4%nat → Forall (λ c, 0 ≤ c < 256) l →
  load_u32 (Some <$> l) = Some v → store_u32 v = Some <$> l.
Proof.
  intros Hl Hr. do 4 (destruct l as [|? l]; [done|]). destruct l; [|done].
  repeat match goal with H : Forall _ (_ :: _) |- _ =>
    apply Forall_cons in H as [? H] end.
  simpl. intros [= <-]. unfold store_u32. simpl.
  repeat f_equal; Z.div_mod_to_equations; lia.
Qed.

Lemma region_fmap {A B} (f : A → B) (l : list A) o k :
  region (f <$> l) o k = f <$> region l o k.
Proof. unfold region. by rewrite fmap_take, fmap_drop. Qed.

Lemma region_region {A} (l : list A) o k o' k' :
  0 ≤ o → 0 ≤ o' → o' + k' ≤ k →
  region (region l o k) o' k' = region l (o + o') k'.
Proof.
  intros Ho Ho' Hk. apply region_ext; [lia..|]. intros j Hj.
  rewrite region_lookup by lia. f_equal. lia.
Qed.

Section RoundTrip.

Variable isalnum : Z → Z.

(** Resolve the tests of [layout] at a cell whose position is known, the
    artifacts being regions of the stream. *)
Ltac settle_cut :=
  cbv beta zeta iota delta [layout copied from_option];
  rewrite ?cut_length by lia;
  repeat match goal with
  | |- context [decide ?P] =>
      first [rewrite (decide_True (P := P)) by lia
            |rewrite (decide_False (P := P)) by lia]
  end.

(** X21: packing the artifacts of a successful [unpack] gives an image
    of the announced sizes, rounded up to a multiple of 512, that repeats
    the stream byte for byte on the signature, the characters of the
    command line, the parameter block, the bootstub, the kernel and the
    ramdisk, and on the header except for its bytes 7 and 48 to 51 (and 52
    to 55 without a signature); the two size fields hold the same values.
    It does not repeat the rest: the bytes from the NUL that ends the
    command line to the size fields, and the filler between the parameter
    block and the bootstub, are never written and stay indeterminate, and a
    signed image gets the marker at + 1040.  A byte that the stream lacks
    (the stream ended before it) is indeterminate in the image as well. *)
Theorem unpack_then_pack bytes r h s b ks rs :
  unpack isalnum (Some bytes) = Some r →
  u_stdout r = [("header size", h); ("sig size", s); ("bootstub size", b);
                ("kernel size", ks); ("ramdisk size", rs)] →
  ∃ (n : nat) image,
    strlen (Some <$> region bytes (h + s) 1024) = Some n ∧
    pack (u_files r) true = Some (mkPacked 0 [] (Some image)) ∧
    len image = 512 * ((h + s + 4096 + b + ks + rs + 511) / 512) ∧
    load_u32 (region image (h + s + 1024) 4) = Some ks ∧
    load_u32 (region image (h + s + 1028) 4) = Some rs ∧
    (0 < s → region image (h + s + 1040) 8 = sig_magic) ∧
    ∀ i : nat, Z.of_nat i < h + s + 4096 + b + ks + rs →
      ((Z.of_nat i < h ∧ i ≠ 7%nat ∧ ¬ 48 ≤ Z.of_nat i < 52 ∧
        (s = 0 → ¬ 52 ≤ Z.of_nat i < 56))
       ∨ h ≤ Z.of_nat i < h + s + Z.of_nat n
       ∨ h + s + 1032 ≤ Z.of_nat i < h + s + 1040
       ∨ h + s + 4096 ≤ Z.of_nat i →
       image !! i = Some (bytes !! i)) ∧
      (h + s + Z.of_nat n ≤ Z.of_nat i < h + s + 1024
       ∨ (h + s + 1040 ≤ Z.of_nat i < h + s + 4096 ∧
          (0 < s → h + s + 1048 ≤ Z.of_nat i)) →
       image !! i = Some None).
Proof.
  intros Hr Hout. apply unpack_detection in Hr
    as (v0 & s' & n & v2 & ks' & rs' & H0 & H01 & Hs' & HL' & Hn & H2 & Hk
        & Hrd & ->).
  set (h' := if decide (v0 = 0) then 512 else 0) in *.
  set (b' := (if decide (v2 = 0) then 4096 else 8192)
             - (if decide (h' + s' + 8194 ≤ len bytes) then 0 else 1)) in *.
  assert (h' = if bool_decide (v0 = 0) then 512 else 0) as Hh'
    by (unfold h'; by destruct (decide (v0 = 0)) as [->| ];
        [rewrite bool_decide_eq_true_2|rewrite bool_decide_eq_false_2]).
  assert (0 ≤ h' ≤ 512) as Hh0
    by (unfold h'; clear; destruct (decide (v0 = 0)); lia).
  assert (0 ≤ s' ≤ 1024) as Hs0
    by (rewrite Hs'; clear; repeat (match goal with
          |- context [decide ?P] => destruct (decide P) end); lia).
  assert (4095 ≤ b' ≤ 8192) as Hb0
    by (unfold b'; clear; repeat (match goal with
          |- context [decide ?P] => destruct (decide P) end); lia).
  assert (Z.of_nat n < 1024) as Hn0.
  { apply strlen_lt in Hn.
    pose proof (region_len bytes (h' + s') 1024 ltac:(lia)). lia. }
  clearbody h' b'. clear H0 H01 Hs' H2.
  assert (¬ (ks' < 500000 ∨ ks' > 15000000) ∧
          ¬ (rs' < 10000 ∨ rs' > 300000000) ∧
          h = h' ∧ s = s' ∧ b = b' ∧ ks = ks' ∧ rs = rs')
    as (Hk1 & Hr1 & -> & -> & -> & -> & ->).
  { unfold segments in Hout.
    destruct (decide (ks' < 500000 ∨ ks' > 15000000)); [done|].
    destruct (decide (rs' < 10000 ∨ rs' > 300000000)); [done|].
    simpl in Hout. injection Hout as -> -> -> -> ->. done. }
  clear Hout.
  destruct (segments_pack bytes (bool_decide (v0 = 0)) h' s' (Z.of_nat n)
              b' ks' rs') as (image & x & Hpack & Hlen & _ & Hlay);
    [done|lia..|done|done|].
  pose proof (round_up_bounds (h' + s' + 4096 + b' + ks' + rs') ltac:(lia))
    as Hround. rewrite <- Hlen in Hround.
  exists n, image. split; [done|]. split; [done|]. split; [done|].
  clear Hpack Hlen Hk Hrd Hn HL'.
  assert (h' = 0 ∧ bool_decide (v0 = 0) = false ∨
          h' = 512 ∧ bool_decide (v0 = 0) = true) as Hcase
    by (destruct (bool_decide (v0 = 0)); auto).
  clear Hh'. destruct Hcase as [[-> Ehdr]|[-> Ehdr]]; rewrite Ehdr in Hlay;
    clear Ehdr Hh0.
  all: destruct (decide (s' > 0)) as [Hsig|Hsig];
    [|assert (s' = 0) as -> by lia].
  all: split_and!.
  all: try (intros Hpos; exfalso; clear -Hpos; lia).
  all: try (intros Hpos;
            change sig_magic with (region sig_magic 0 8);
            apply region_ext; [lia..|]; intros j Hj; rewrite Hlay by lia;
            settle_cut; f_equal; lia).
  all: try (match goal with |- load_u32 (region _ ?o 4) = Some ?v =>
              assert (region image o 4 = store_u32 v) as ->;
              [change (store_u32 v) with (region (store_u32 v) 0 4);
               apply region_ext; [lia..|]; intros j Hj; rewrite Hlay by lia;
               settle_cut; f_equal; lia
              |apply load_store_u32; lia]
            end).
  all: intros i Hi; split; intros Hpos; rewrite Hlay by lia.
  all: try (destruct Hpos as [Hpos|[Hpos|[Hpos|Hpos]]];
            try (exfalso; lia); settle_cut;
            repeat (match goal with
                    | |- context [decide ?P] => destruct (decide P)
                    end);
            try (exfalso; lia);
            rewrite ?cut_lookup by lia; do 2 f_equal; lia).
  all: destruct Hpos as [Hpos|Hpos]; settle_cut; done.
Qed.

(** A successful run of [unpack] is the reference locator at the sizes
    that it printed. *)
Lemma unpack_success bytes r h s b ks rs :
  unpack isalnum (Some bytes) = Some r →
  u_stdout r = [("header size", h); ("sig size", s); ("bootstub size", b);
                ("kernel size", ks); ("ramdisk size", rs)] →
  ∃ (hdr : bool) (n : nat),
    h = (if hdr then 512 else 0) ∧ 0 ≤ s ≤ 1024 ∧ 4095 ≤ b ≤ 8192 ∧
    Z.of_nat n < 1024 ∧ h + s + 8192 < len bytes ∧
    strlen (Some <$> region bytes (h + s) 1024) = Some n ∧
    load_u32 (Some <$> region bytes (h + s + 1024) 4) = Some ks ∧
    load_u32 (Some <$> region bytes (h + s + 1028) 4) = Some rs ∧
    ¬ (ks < 500000 ∨ ks > 15000000) ∧ ¬ (rs < 10000 ∨ rs > 300000000) ∧
    r = segments bytes hdr h s (Z.of_nat n) b ks rs.
Proof.
  intros Hr Hout. apply unpack_detection in Hr
    as (v0 & s' & n & v2 & ks' & rs' & H0 & H01 & Hs' & HL' & Hn & H2 & Hk
        & Hrd & ->).
  set (h' := if decide (v0 = 0) then 512 else 0) in *.
  set (b' := (if decide (v2 = 0) then 4096 else 8192)
             - (if decide (h' + s' + 8194 ≤ len bytes) then 0 else 1)) in *.
  assert (h' = if bool_decide (v0 = 0) then 512 else 0) as Hh'
    by (unfold h'; by destruct (decide (v0 = 0)) as [->| ];
        [rewrite bool_decide_eq_true_2|rewrite bool_decide_eq_false_2]).
  assert (0 ≤ h' ≤ 512) as Hh0
    by (unfold h'; clear; destruct (decide (v0 = 0)); lia).
  assert (0 ≤ s' ≤ 1024) as Hs0
    by (rewrite Hs'; clear; repeat (match goal with
          |- context [decide ?P] => destruct (decide P) end); lia).
  assert (4095 ≤ b' ≤ 8192) as Hb0
    by (unfold b'; clear; repeat (match goal with
          |- context [decide ?P] => destruct (decide P) end); lia).
  assert (Z.of_nat n < 1024) as Hn0.
  { pose proof (strlen_lt _ _ Hn).
    pose proof (region_len bytes (h' + s') 1024 ltac:(lia)). lia. }
  clearbody h' b'. clear H0 H01 Hs' H2.
  assert (¬ (ks' < 500000 ∨ ks' > 15000000) ∧
          ¬ (rs' < 10000 ∨ rs' > 300000000) ∧
          h = h' ∧ s = s' ∧ b = b' ∧ ks = ks' ∧ rs = rs')
    as (Hk1 & Hr1 & -> & -> & -> & -> & ->).
  { unfold segments in Hout.
    destruct (decide (ks' < 500000 ∨ ks' > 15000000)); [done|].
    destruct (decide (rs' < 10000 ∨ rs' > 300000000)); [done|].
    simpl in Hout. injection Hout as -> -> -> -> ->. done. }
  exists (bool_decide (v0 = 0)), n. split_and!; (done || lia).
Qed.

(** C1, as the code has it: running [unpack] on an image and [pack] on
    the artifacts that it emitted gives an image of the announced sizes,
    rounded up to a multiple of 512 with bytes 0xFF.  It repeats the
    original byte for byte on the signature, the characters of the
    command line, the eight parameter bytes, the bootstub, the kernel and
    the ramdisk, on the header outside the recomputed fields, and (the
    original being a sequence of bytes) on the two size fields.  The
    recomputed fields satisfy their formulas: the byte at offset 7 is the
    checksum of the new header, the word at offset 48 the number of
    sectors minus one, the word at offset 52 of an unsigned image the
    original one plus one, and a signed image has the marker at + 1040.
    The rest is not reproduced: [pack] never writes the bytes from the NUL
    that ends the command line to the size fields, nor the filler between
    the parameter block and the bootstub, and they are indeterminate in
    the new image. *)
Theorem unpack_pack_round_trip bytes r h s b ks rs :
  unpack isalnum (Some bytes) = Some r →
  u_stdout r = [("header size", h); ("sig size", s); ("bootstub size", b);
                ("kernel size", ks); ("ramdisk size", rs)] →
  ∃ (n : nat) image x,
    strlen (Some <$> region bytes (h + s) 1024) = Some n ∧
    pack (u_files r) true = Some (mkPacked 0 [] (Some image)) ∧
    len image = 512 * ((h + s + 4096 + b + ks + rs + 511) / 512) ∧
    (∀ i : nat, Z.of_nat i < h + s + 4096 + b + ks + rs →
       (Z.of_nat i < h ∧ i ≠ 7%nat ∧ ¬ 48 ≤ Z.of_nat i < 52 ∧
        (s = 0 → ¬ 52 ≤ Z.of_nat i < 56))
       ∨ h ≤ Z.of_nat i < h + s + Z.of_nat n
       ∨ h + s + 1032 ≤ Z.of_nat i < h + s + 1040
       ∨ h + s + 4096 ≤ Z.of_nat i →
       image !! i = Some (bytes !! i)) ∧
    load_u32 (region image (h + s + 1024) 4) = Some ks ∧
    load_u32 (region image (h + s + 1028) 4) = Some rs ∧
    (Forall (λ c, 0 ≤ c < 256) bytes →
       region image (h + s + 1024) 4
       = Some <$> region bytes (h + s + 1024) 4 ∧
       region image (h + s + 1028) 4
       = Some <$> region bytes (h + s + 1028) 4) ∧
    (h = 512 →
       image !! 7%nat = Some x ∧ x = checksum image ∧
       load_u32 (region image 48 4) = Some (len image / 512 - 1) ∧
       (s = 0 →
        ∃ v, load_u32 (Some <$> region bytes 52 4) = Some v ∧
             load_u32 (region image 52 4) = Some ((v + 1) mod 2 ^ 32))) ∧
    (0 < s → region image (h + s + 1040) 8 = sig_magic) ∧
    (∀ i : nat, h + s + 4096 + b + ks + rs ≤ Z.of_nat i < len image →
       image !! i = Some (Some 255)) ∧
    (∀ i : nat,
       h + s + Z.of_nat n ≤ Z.of_nat i < h + s + 1024
       ∨ (h + s + 1040 ≤ Z.of_nat i < h + s + 4096 ∧
          (0 < s → h + s + 1048 ≤ Z.of_nat i)) →
       image !! i = Some None).
Proof.
  intros Hr Hout.
  destruct (unpack_success _ _ _ _ _ _ _ Hr Hout)
    as (hdr & n & Hh & Hs0 & Hb0 & Hn0 & HL & Hn & Hk & Hrd & Hk1 & Hr1 & ->).
  clear Hr Hout.
  destruct (segments_pack bytes hdr h s (Z.of_nat n) b ks rs)
    as (image & x & Hpack & Hlen & Hx & Hlay);
    [done|lia..|done|done|].
  assert (0 ≤ h ≤ 512) as Hh0 by (destruct hdr; lia).
  pose proof (round_up_bounds (h + s + 4096 + b + ks + rs) ltac:(lia))
    as Hround. rewrite <- Hlen in Hround.
  exists n, image, x. split; [done|]. split; [done|]. split; [done|].
  clear Hpack Hlen Hn.
  (* the two size fields *)
  assert (region image (h + s + 1024) 4 = store_u32 ks ∧
          region image (h + s + 1028) 4 = store_u32 rs) as [Rk Rr].
  { split.
    - change (store_u32 ks) with (region (store_u32 ks) 0 4).
      apply region_ext; [lia..|]. intros j Hj. rewrite Hlay by lia.
      destruct hdr, (decide (s > 0)); subst h; settle_cut; f_equal; lia.
    - change (store_u32 rs) with (region (store_u32 rs) 0 4).
      apply region_ext; [lia..|]. intros j Hj. rewrite Hlay by lia.
      destruct hdr, (decide (s > 0)); subst h; settle_cut; f_equal; lia. }
  split_and!.
  - (* the bytes that are repeated *)
    intros i Hi Hpos. rewrite Hlay by lia. clear Rk Rr Hk Hrd Hx.
    destruct hdr, (decide (s > 0)) as [Hsig|Hsig]; subst h;
      try (assert (s = 0) as -> by lia).
    all: destruct Hpos as [Hpos|[Hpos|[Hpos|Hpos]]];
      try (exfalso; lia); settle_cut;
      repeat (match goal with
              | |- context [decide ?P] => destruct (decide P)
              end);
      try (exfalso; lia);
      rewrite ?cut_lookup by lia; do 2 f_equal; lia.
  - rewrite Rk. apply load_store_u32. lia.
  - rewrite Rr. apply load_store_u32. lia.
  - intros Hbytes. rewrite Rk, Rr.
    assert (∀ o, 0 ≤ o → o + 4 ≤ len bytes →
                 length (region bytes o 4) = 4%nat ∧
                 Forall (λ c, 0 ≤ c < 256) (region bytes o 4)) as Hreg.
    { intros o Ho Ho'. split.
      - pose proof (region_length bytes o 4 Ho ltac:(lia) Ho'). lia.
      - unfold region. by apply Forall_take, Forall_drop. }
    split; apply store_load_u32; try done; apply Hreg; lia.
  - (* the fix-ups of the header *)
    intros ->. destruct hdr; [|done]. clear Rk Rr Hk Hrd.
    split_and!.
    + rewrite Hlay by lia.
      destruct (decide (s > 0)); settle_cut; done.
    + by apply Hx.
    + assert (region image 48 4 = store_u32 (len image / 512 - 1)) as ->.
      { change (store_u32 (len image / 512 - 1))
          with (region (store_u32 (len image / 512 - 1)) 0 4).
        apply region_ext; [lia..|]. intros j Hj. rewrite Hlay by lia.
        destruct (decide (s > 0)); settle_cut; f_equal; lia. }
      apply load_store_u32.
      pose proof (Z.div_mod (len image) 512 ltac:(lia)).
      pose proof (Z.mod_pos_bound (len image) 512 ltac:(lia)). lia.
    + intros ->.
      assert (region (cut bytes 0 512) 52 4 = Some <$> region bytes 52 4)
        as Ecut.
      { rewrite cut_full, region_fmap, region_region by lia. done. }
      destruct (load_u32_is_Some (region bytes 52 4)) as [v Hv].
      { pose proof (region_length bytes 52 4 ltac:(lia) ltac:(lia)
                      ltac:(lia)). lia. }
      exists v. split; [done|].
      assert (region image 52 4 = store_u32 ((v + 1) mod 2 ^ 32)) as ->.
      { change (store_u32 ((v + 1) mod 2 ^ 32))
          with (region (store_u32 ((v + 1) mod 2 ^ 32)) 0 4).
        apply region_ext; [lia..|]. intros j Hj. rewrite Hlay by lia.
        rewrite decide_False by lia. settle_cut.
        rewrite Ecut, Hv. simpl. f_equal. lia. }
      apply load_store_u32. apply Z.mod_pos_bound. lia.
  - (* the marker of a signed image *)
    intros Hpos. change sig_magic with (region sig_magic 0 8).
    apply region_ext; [lia..|]. intros j Hj. rewrite Hlay by lia.
    rewrite decide_True by lia.
    destruct hdr; subst h; settle_cut; f_equal; lia.
  - (* the trailing padding *)
    intros i Hi. rewrite Hlay by lia.
    destruct hdr, (decide (s > 0)); subst h; settle_cut;
      apply lookup_replicate_2; lia.
  - (* what is not written *)
    intros i Hpos. rewrite Hlay by lia. clear Rk Rr Hk Hrd Hx.
    destruct hdr, (decide (s > 0)) as [Hsig|Hsig]; subst h;
      try (assert (s = 0) as -> by lia).
    all: destruct Hpos as [Hpos|Hpos]; settle_cut; done.
Qed.

End RoundTrip.

Lemma unpack_then_pack_witness :
  ∃ r image,
    unpack Libc.isalnum_mask (Some Samples.image) = Some r ∧
    pack (u_files r) true = Some (mkPacked 0 [] (Some image)) ∧
    image !! 0%nat = Some (Samples.image !! 0%nat) ∧
    image !! 1000%nat = Some None.
Proof.
  assert (u_stdout <$> unpack Libc.isalnum_mask (Some Samples.image)
          = Some [("header size", 512); ("sig size", 480);
                  ("bootstub size", 4096); ("kernel size", 500000);
                  ("ramdisk size", 10000)]) as Hout
    by (vm_compute; reflexivity).
  destruct (unpack Libc.isalnum_mask (Some Samples.image))
    as [r|] eqn:E; [|discriminate Hout].
  injection Hout as Hout.
  destruct (unpack_then_pack _ _ _ _ _ _ _ _ E Hout)
    as (n & image & Hn & Hpack & _ & _ & _ & _ & Hcells).
  assert (n = 4%nat) as -> by (vm_compute in Hn; congruence).
  exists r, image. split; [reflexivity|]. split; [exact Hpack|]. split.
  - apply Hcells; [vm_compute; reflexivity|]. left.
    split_and!; [vm_compute; reflexivity|discriminate|simpl; lia|simpl; lia].
  - apply Hcells; [vm_compute; reflexivity|]. left.
    vm_compute. split; [discriminate|reflexivity].
Defined.

(** ** The command line *)

Lemma parse_args_status args : ∀ c v,
  parse_args args c = inl v → v = 0 ∨ v = 1.
Proof.
  assert (∀ l, (∀ c v, parse_args l c = inl v → v = 0 ∨ v = 1) ∧
               (∀ x c v, parse_args (x :: l) c = inl v → v = 0 ∨ v = 1))
    as H; [|exact (proj1 (H args))].
  induction l as [|y l [IH1 IH2]].
  - split; [done|]. intros x c v. simpl. unfold usage.
    repeat case_decide; intros Hv; simplify_eq; auto.
  - split; [apply IH2|]. intros x c v.
    change (parse_args (x :: y :: l) c) with
      (if decide (x = "-h" ∨ x = "--help") then inl (usage 0)
       else if decide (x = "-u" ∨ x = "--unpack") then
         parse_args (y :: l)
           (mkConfig true (cfg_filename c) (cfg_directory c))
       else if decide (x = "-f" ∨ x = "--file") then
         parse_args l (mkConfig (unpackbool c) y (cfg_directory c))
       else if decide (x = "-d" ∨ x = "--dir") then
         parse_args l (mkConfig (unpackbool c) (cfg_filename c) y)
       else inl (usage 1) : Z + config).
    unfold usage. repeat case_decide; eauto; intros Hv; simplify_eq; auto.
Qed.


Section MainMore.

Variable isalnum : Z → Z.

(** X23: a run of [main] returns 0 or 1; it never writes both artifacts
    and an image; it writes an image only when it returns 0; and when it
    returns 0 without having written anything, the arguments asked for
    the help text.  (The artifacts of the directory are smaller than 2^31
    bytes.) *)
Theorem main_outcome argv w o :
  (∀ path n d, w_artifacts w path !! n = Some d → len d < 2 ^ 31) →
  main isalnum argv w = Some o →
  (o_exit o = 0 ∨ o_exit o = 1) ∧
  (o_artifacts o = ∅ ∨ o_image o = None) ∧
  (is_Some (o_image o) → o_exit o = 0) ∧
  (o_exit o = 0 → o_artifacts o = ∅ → o_image o = None →
   parse_args (tail argv) (mkConfig false filename "./") = inl 0).
Proof.
  intros _. unfold main.
  destruct (parse_args (tail argv) _) as [v|c] eqn:Eargs.
  { intros [= <-]. simpl. apply parse_args_status in Eargs.
    split_and!; auto; [by intros [? ?]|]. by intros ->. }
  destruct (w_stat w (cfg_directory c)) as [[|]|];
    [|intros [= <-]; simpl; split_and!; auto;
      by (intros [? ?] || intros ?)..].
  destruct (unpackbool c).
  - destruct (w_image w (cfg_filename c)) as [bytes|].
    + destruct (unpack isalnum (Some bytes)) as [r|] eqn:Er; [|done].
      simpl. intros [= <-]. simpl.
      apply unpack_segments in Er
        as (v0 & s & n & v2 & ks & rs & _ & _ & _ & _ & _ & _ & _ & _ & ->).
      cbv zeta.
      match goal with |- context [segments ?a ?b ?c ?d ?e ?f ?g ?i] =>
        destruct (segments_files a b c d e f g i) as (_&_&Hc&_);
        destruct (segments_status a b c d e f g i) as (Hs1 & Hs2 & Hs3);
        set (r := segments a b c d e f g i) in *
      end.
      cbv zeta in Hc.
      assert (u_status r = 0 ∨ u_status r = 1) as Hst.
      { destruct (decide (ks < 500000 ∨ ks > 15000000)) as [Hk|Hk];
          [right; by apply Hs1|].
        destruct (decide (rs < 10000 ∨ rs > 300000000)) as [Hr|Hr];
          [right; by apply Hs2|left; by apply Hs3]. }
      split_and!; auto; [by intros [? ?]|].
      intros _ Hempty. rewrite Hempty, lookup_empty in Hc. done.
    + simpl. intros [= <-]. simpl. split_and!; auto;
        by (intros [? ?] || intros ?).
  - destruct (pack _ _) as [p|] eqn:Ep; [|done]. simpl. intros [= <-]. simpl.
    unfold pack in Ep.
    destruct (read_required_cases (w_artifacts w (cfg_directory c))
                required_file) as [(n & _ & _ & Hn)|(ds & Hds & Hl & _)].
    + rewrite Hn in Ep. injection Ep as <-. simpl.
      split_and!; auto; by (intros [? ?] || intros ?).
    + rewrite Hds in Ep.
      do 5 (destruct ds as [|? ds]; [done|]). destruct ds; [|done].
      destruct (w_writable w (cfg_filename c)); simpl in Ep.
      * destruct (assemble _ _ _ _ _ _ _) as [image|]; simpl in Ep; [|done].
        injection Ep as <-. simpl. split_and!; auto. done.
      * injection Ep as <-. simpl. split_and!; auto;
          by (intros [? ?] || intros ?).
Qed.

End MainMore.


Lemma main_outcome_witness :
  ∃ o, main Libc.isalnum_mask ["mboot"; "-u"; "-d"; "out"] Worlds.with_image
       = Some o ∧ (o_exit o = 0 ∨ o_exit o = 1).
Proof.
  destruct (main Libc.isalnum_mask ["mboot"; "-u"; "-d"; "out"]
              Worlds.with_image) as [o|] eqn:E; [|by vm_compute in E].
  exists o. split; [reflexivity|].
  refine (proj1 (main_outcome _ _ _ _ _ E)).
  intros path n d Hd. simpl in Hd. by rewrite lookup_empty in Hd.
Defined.

Lemma written_default (image : list cell) :
  Forall2 (λ c z, c = None ∨ c = Some z) image (default 0 <$> image).
Proof. induction image as [|[z|] image IH]; constructor; auto. Qed.

Lemma pack_then_unpack_witness :
  ∃ r,
    unpack Libc.isalnum_mask (Some Dirs.written_file) = Some r ∧
    (u_status r = 0 ↔
       500000 ≤ len (replicate 5 (Some 7) : list cell) ≤ 15000000 ∧
       10000 ≤ len (replicate 3 (Some 9) : list cell) ≤ 300000000) ∧
    u_files r !! "cmdline.txt" = Some Samples.cmdline.
Proof.
  destruct (unpack Libc.isalnum_mask (Some Dirs.written_file))
    as [r|] eqn:E; [|by vm_compute in E].
  assert (u_stdout <$> unpack Libc.isalnum_mask (Some Dirs.written_file)
          = Some [("header size", 0); ("sig size", 0);
                  ("bootstub size", 4096)]) as Hout
    by (vm_compute; reflexivity).
  rewrite E in Hout. injection Hout as Hout.
  destruct (pack_then_unpack Dirs.bootable_dir
              Samples.cmdline Samples.parameter Samples.bootstub
              (replicate 5 (Some 7)) (replicate 3 (Some 9))
              eq_refl eq_refl eq_refl eq_refl eq_refl
              Libc.isalnum_mask Dirs.packed_image Dirs.written_file r)
    as (Hst & Htxt).
  - vm_compute. discriminate.
  - vm_compute. discriminate.
  - vm_compute. discriminate.
  - vm_compute. reflexivity.
  - apply written_default.
  - exact E.
  - rewrite Hout, !elem_of_cons. auto.
  - rewrite Hout, !elem_of_cons. auto.
  - destruct Htxt as (txt & Htxt & _ & Heq).
    + repeat constructor; eexists; (split; [reflexivity|discriminate]).
    + vm_compute. reflexivity.
    + by left.
    + exists r. split; [reflexivity|]. split; [exact Hst|].
      rewrite Htxt. f_equal. apply Heq. vm_compute. reflexivity.
Defined.

Lemma unpack_pack_round_trip_witness :
  ∃ r image,
    unpack Libc.isalnum_mask (Some Samples.image) = Some r ∧
    pack (u_files r) true = Some (mkPacked 0 [] (Some image)) ∧
    image !! 0%nat = Some (Samples.image !! 0%nat) ∧
    load_u32 (region image 48 4) = Some (len image / 512 - 1).
Proof.
  assert (u_stdout <$> unpack Libc.isalnum_mask (Some Samples.image)
          = Some [("header size", 512); ("sig size", 480);
                  ("bootstub size", 4096); ("kernel size", 500000);
                  ("ramdisk size", 10000)]) as Hout
    by (vm_compute; reflexivity).
  destruct (unpack Libc.isalnum_mask (Some Samples.image))
    as [r|] eqn:E; [|discriminate Hout].
  injection Hout as Hout.
  destruct (unpack_pack_round_trip _ _ _ _ _ _ _ _ E Hout)
    as (n & image & x & _ & Hpack & _ & Hcells & _ & _ & _ & Hfix & _).
  destruct (Hfix eq_refl) as (_ & _ & Hsec & _).
  exists r, image. split; [reflexivity|]. split; [exact Hpack|].
  split; [|exact Hsec].
  apply Hcells; [vm_compute; reflexivity|]. left.
  split_and!; [vm_compute; reflexivity|discriminate|simpl; lia|simpl; lia].
Defined.

(** C1 as stated fails: the image that [pack] makes from the artifacts
    of a complete image does not repeat it byte for byte outside the
    recomputed fields.  In the original, the byte at offset 3000 (filler
    between the parameter block and the bootstub) is 90 and the byte at
    offset 996 is the NUL that ends the command line; [pack] writes
    neither, and both are indeterminate in the new image. *)
Lemma unpack_pack_round_trip_counterexample :
  (r ← unpack Libc.isalnum_mask (Some Samples.image);
   p ← pack (u_files r) true;
   image ← p_image p;
   Some (u_status r, p_status p, image !! 3000%nat, image !! 996%nat))
  = Some (0, 0, Some None, Some None) ∧
  Samples.image !! 3000%nat = Some 90 ∧
  Samples.image !! 996%nat = Some 0.
Proof.
  refine (conj _ (conj _ _)); vm_compute; reflexivity.
Qed.
